(** * VTextEdit: line-number gutter, image cache and caret width

    A shallow embedding of [src/vtextedit.cpp] (vnote).  The editing widget
    is modelled as a record of the members the file reads and writes, every
    member function as a function on that record, and the calls the widget
    makes on its collaborators (the document layout, the gutter widget, the
    [QTextEdit] base class) as a chronological log.  The gutter painter is
    modelled as a function from the document and the layout geometry to the
    list of [drawText] calls it issues. *)

From Stdlib Require Import ZArith Lia Bool List String QArith Sorted.
From stdpp Require Import base list gmap strings pretty.

Local Open Scope Z_scope.

(** ** C++ [int] arithmetic

    [int] is a 32-bit two's complement integer.  The operations below wrap
    around; the theorems carry the range hypotheses (a document has at most
    [INT_MAX] blocks, as [QTextDocument::blockCount] returns [int]) under
    which no operation on line numbers leaves the range. *)

Definition INT_MAX : Z := 2 ^ 31 - 1.
Definition INT_MIN : Z := - 2 ^ 31.

Definition int_wrap (z : Z) : Z := (z + 2 ^ 31) mod 2 ^ 32 - 2 ^ 31.

Definition int_add (a b : Z) : Z := int_wrap (a + b).
Definition int_sub (a b : Z) : Z := int_wrap (a - b).
Definition int_neg (a : Z) : Z := int_wrap (- a).

Definition in_int (z : Z) : Prop := INT_MIN <= z <= INT_MAX.

(** [#define VIRTUAL_CURSOR_BLOCK_WIDTH 8] *)
Definition VIRTUAL_CURSOR_BLOCK_WIDTH : Z := 8.

(** [enum class BlockState], with the integer value of each enumerator
    (the code compares [(int)BlockState::X] with [QTextBlock::userState]). *)
Module BlockState.
Inductive t := Normal | CodeBlockStart | CodeBlock | CodeBlockEnd | Comment.

Definition to_int (s : t) : Z :=
  match s with
  | Normal => 0
  | CodeBlockStart => 1
  | CodeBlock => 2
  | CodeBlockEnd => 3
  | Comment => 4
  end.
End BlockState.

(** Modelled from the spec: [enum class LineNumberType], declared in
    vtextedit.h, which is not part of the sources.  The spec's numbering modes
    are "None | Absolute | Relative | CodeBlockLocal"; the enumerators carry
    the names the code uses for them. *)
Module LineNumberType.
Inductive t := None | Absolute | Relative | CodeBlock.

Definition eqb (a b : t) : bool :=
  match a, b with
  | None, None | Absolute, Absolute | Relative, Relative
  | CodeBlock, CodeBlock => true
  | _, _ => false
  end.
End LineNumberType.

(** Modelled from the spec: [enum class CursorBlock], declared in vtextedit.h
    as well.  The spec's CursorBlockMode is "None | BlockCaret"; the code only
    distinguishes [CursorBlock::None] from the rest. *)
Module CursorBlock.
Inductive t := None | BlockCaret.

Definition eqb (a b : t) : bool :=
  match a, b with
  | None, None | BlockCaret, BlockCaret => true
  | _, _ => false
  end.
End CursorBlock.

(** ** Images *)

Record QSize := { size_width : Z; size_height : Z }.

(** [QSize()]: Qt's default-constructed size has width and height -1. *)
Definition QSize_default : QSize := {| size_width := -1; size_height := -1 |}.

(** A decoded image: its natural size and its pixel buffer. *)
Record QPixmap := { pixmap_size : QSize; pixmap_data : list Z }.

(** Modelled from the spec: class [VImageResourceManager2]
    (vimageresourcemanager2.h/.cpp are not part of the sources).  The spec's
    ImageResourceCache "owns named in-memory images" keyed by a unique name;
    a finite map from names to images. *)
Record VImageResourceManager2 := { m_images : gmap string QPixmap }.

Module ImageMgr.
(** Modelled from the spec: the constructor of [VImageResourceManager2];
    image resources "are created by add", so a new cache has none. *)
Definition new : VImageResourceManager2 := {| m_images := ∅ |}.

(** Modelled from the spec: [VImageResourceManager2::addImage], which
    "inserts or replaces the entry for name ... silently overwrites". *)
Definition addImage (name : string) (image : QPixmap)
    (m : VImageResourceManager2) : VImageResourceManager2 :=
  {| m_images := <[name := image]> (m_images m) |}.

(** Modelled from the spec: [VImageResourceManager2::removeImage], which
    "removes the entry if present; no-op otherwise". *)
Definition removeImage (name : string)
    (m : VImageResourceManager2) : VImageResourceManager2 :=
  {| m_images := delete name (m_images m) |}.

(** Modelled from the spec: [VImageResourceManager2::contains]. *)
Definition contains (name : string) (m : VImageResourceManager2) : bool :=
  bool_decide (is_Some (m_images m !! name)).

(** Modelled from the spec: [VImageResourceManager2::findImage], which
    "returns nothing if absent" (a null pointer in the source). *)
Definition findImage (name : string)
    (m : VImageResourceManager2) : option QPixmap :=
  m_images m !! name.

(** Modelled from the spec: [VImageResourceManager2::clear], which
    "removes all entries". *)
Definition clear (m : VImageResourceManager2) : VImageResourceManager2 :=
  {| m_images := ∅ |}.
End ImageMgr.

(** ** The widget and its collaborators *)

Definition QColor := Z.

(** Calls the widget makes on objects it does not implement itself, in the
    order in which they are made. *)
Inductive Call :=
| Edit_setAcceptRichText (b : bool)
| Edit_setCursorWidth (w : Z)
| Edit_setViewportMargins (l t r b : Z)
| Layout_setBlockImageEnabled (b : bool)
| Layout_setVirtualCursorBlockWidth (w : Z)
| Layout_setLineLeading (l : Q)
| Layout_relayout
| Layout_relayoutBlocks (blocks : gset Z)
| Layout_setImageWidthConstrainted (b : bool)
| Layout_setImageLineColor (c : QColor)
| Layout_setCursorBlockMode (m : CursorBlock.t)
| Layout_clearLastCursorBlockWidth
| Layout_setHighlightCursorLineBlockEnabled (b : bool)
| Layout_setCursorLineBlockNumber (n : Z)
| Layout_setCursorLineBlockBg (c : QColor)
| ImageMgr_addImage (name : string) (image : QPixmap)
| ImageMgr_removeImage (name : string)
| ImageMgr_clear
| Area_setGeometry (left top width height : Z)
| Area_show
| Area_hide
| Area_update.

(** The members of [VTextEdit] and the state of the base class and of the
    gutter widget that the code reads back:
    [cursorWidth] is [QTextEdit::cursorWidth()],
    [viewportMarginLeft] is [viewportMargins().left()],
    [areaVisible] is [m_lineNumberArea->isVisible()],
    [areaWidth] is what [m_lineNumberArea->calculateWidth()] returns
    ([VLineNumberArea] is not part of the sources) and
    [editorVisible] is [isVisible()] of the editor itself, the parent of the
    gutter widget: a child widget that is shown is visible only when its
    parent is. *)
Record VTextEdit := {
  m_lineNumberType : LineNumberType.t;
  m_blockImageEnabled : bool;
  m_cursorBlockMode : CursorBlock.t;
  m_highlightCursorLineBlock : bool;
  m_imageMgr : VImageResourceManager2;
  cursorWidth : Z;
  viewportMarginLeft : Z;
  areaVisible : bool;
  areaWidth : Z;
  editorVisible : bool;
  calls : list Call
}.

Definition call (c : Call) (e : VTextEdit) : VTextEdit :=
  {| m_lineNumberType := m_lineNumberType e;
     m_blockImageEnabled := m_blockImageEnabled e;
     m_cursorBlockMode := m_cursorBlockMode e;
     m_highlightCursorLineBlock := m_highlightCursorLineBlock e;
     m_imageMgr := m_imageMgr e;
     cursorWidth := cursorWidth e;
     viewportMarginLeft := viewportMarginLeft e;
     areaVisible := areaVisible e;
     areaWidth := areaWidth e;
     editorVisible := editorVisible e;
     calls := calls e ++ [c] |}.

Definition set_imageMgr (m : VImageResourceManager2) (e : VTextEdit) : VTextEdit :=
  {| m_lineNumberType := m_lineNumberType e;
     m_blockImageEnabled := m_blockImageEnabled e;
     m_cursorBlockMode := m_cursorBlockMode e;
     m_highlightCursorLineBlock := m_highlightCursorLineBlock e;
     m_imageMgr := m;
     cursorWidth := cursorWidth e;
     viewportMarginLeft := viewportMarginLeft e;
     areaVisible := areaVisible e;
     areaWidth := areaWidth e;
     editorVisible := editorVisible e;
     calls := calls e |}.

Definition set_blockImageEnabled (b : bool) (e : VTextEdit) : VTextEdit :=
  {| m_lineNumberType := m_lineNumberType e;
     m_blockImageEnabled := b;
     m_cursorBlockMode := m_cursorBlockMode e;
     m_highlightCursorLineBlock := m_highlightCursorLineBlock e;
     m_imageMgr := m_imageMgr e;
     cursorWidth := cursorWidth e;
     viewportMarginLeft := viewportMarginLeft e;
     areaVisible := areaVisible e;
     areaWidth := areaWidth e;
     editorVisible := editorVisible e;
     calls := calls e |}.

Definition set_cursorBlockMode (m : CursorBlock.t) (e : VTextEdit) : VTextEdit :=
  {| m_lineNumberType := m_lineNumberType e;
     m_blockImageEnabled := m_blockImageEnabled e;
     m_cursorBlockMode := m;
     m_highlightCursorLineBlock := m_highlightCursorLineBlock e;
     m_imageMgr := m_imageMgr e;
     cursorWidth := cursorWidth e;
     viewportMarginLeft := viewportMarginLeft e;
     areaVisible := areaVisible e;
     areaWidth := areaWidth e;
     editorVisible := editorVisible e;
     calls := calls e |}.

Definition set_highlightCursorLineBlock (b : bool) (e : VTextEdit) : VTextEdit :=
  {| m_lineNumberType := m_lineNumberType e;
     m_blockImageEnabled := m_blockImageEnabled e;
     m_cursorBlockMode := m_cursorBlockMode e;
     m_highlightCursorLineBlock := b;
     m_imageMgr := m_imageMgr e;
     cursorWidth := cursorWidth e;
     viewportMarginLeft := viewportMarginLeft e;
     areaVisible := areaVisible e;
     areaWidth := areaWidth e;
     editorVisible := editorVisible e;
     calls := calls e |}.

(** [QTextEdit::setCursorWidth]: stores the width ([cursorWidth()] reads it
    back). *)
Definition setCursorWidth (w : Z) (e : VTextEdit) : VTextEdit :=
  call (Edit_setCursorWidth w)
  {| m_lineNumberType := m_lineNumberType e;
     m_blockImageEnabled := m_blockImageEnabled e;
     m_cursorBlockMode := m_cursorBlockMode e;
     m_highlightCursorLineBlock := m_highlightCursorLineBlock e;
     m_imageMgr := m_imageMgr e;
     cursorWidth := w;
     viewportMarginLeft := viewportMarginLeft e;
     areaVisible := areaVisible e;
     areaWidth := areaWidth e;
     editorVisible := editorVisible e;
     calls := calls e |}.

(** [QAbstractScrollArea::setViewportMargins(left, 0, 0, 0)]. *)
Definition setViewportMargins (l : Z) (e : VTextEdit) : VTextEdit :=
  call (Edit_setViewportMargins l 0 0 0)
  {| m_lineNumberType := m_lineNumberType e;
     m_blockImageEnabled := m_blockImageEnabled e;
     m_cursorBlockMode := m_cursorBlockMode e;
     m_highlightCursorLineBlock := m_highlightCursorLineBlock e;
     m_imageMgr := m_imageMgr e;
     cursorWidth := cursorWidth e;
     viewportMarginLeft := l;
     areaVisible := areaVisible e;
     areaWidth := areaWidth e;
     editorVisible := editorVisible e;
     calls := calls e |}.

(** [m_lineNumberArea->show()] ([b] true) and [->hide()] ([b] false).  After
    [hide()] the gutter is not visible; after [show()] it is visible when
    the editor is. *)
Definition set_areaVisible (b : bool) (e : VTextEdit) : VTextEdit :=
  call (if b then Area_show else Area_hide)
  {| m_lineNumberType := m_lineNumberType e;
     m_blockImageEnabled := m_blockImageEnabled e;
     m_cursorBlockMode := m_cursorBlockMode e;
     m_highlightCursorLineBlock := m_highlightCursorLineBlock e;
     m_imageMgr := m_imageMgr e;
     cursorWidth := cursorWidth e;
     viewportMarginLeft := viewportMarginLeft e;
     areaVisible := b && editorVisible e;
     areaWidth := areaWidth e;
     editorVisible := editorVisible e;
     calls := calls e |}.

(** ** Member functions of [VTextEdit] *)

(** [VTextEdit::init], run by both constructors.  [width] is the value
    [calculateWidth()] reports for the new gutter.  A new [QTextEdit] has a
    caret one pixel wide and no viewport margins, and neither the editor nor
    the gutter widget is shown yet. *)
Definition init (width : Z) : VTextEdit :=
  {| m_lineNumberType := LineNumberType.None;
     m_blockImageEnabled := false;
     m_cursorBlockMode := CursorBlock.None;
     m_highlightCursorLineBlock := false;
     m_imageMgr := ImageMgr.new;
     cursorWidth := 1;
     viewportMarginLeft := 0;
     areaVisible := false;
     areaWidth := width;
     editorVisible := false;
     calls := [Edit_setAcceptRichText false;
               Layout_setBlockImageEnabled false;
               Layout_setVirtualCursorBlockWidth VIRTUAL_CURSOR_BLOCK_WIDTH] |}.

(** The slot connected to [VTextDocumentLayout::cursorBlockWidthUpdated]. *)
Definition on_cursorBlockWidthUpdated (p_width : Z) (e : VTextEdit) : VTextEdit :=
  if negb (p_width =? cursorWidth e) && (p_width >? VIRTUAL_CURSOR_BLOCK_WIDTH)
  then setCursorWidth p_width e
  else e.

Definition setLineLeading (p_leading : Q) (e : VTextEdit) : VTextEdit :=
  call (Layout_setLineLeading p_leading) e.

(** [VTextEdit::resizeEvent], after the base class has handled the event;
    [left], [top] and [height] are taken from [contentsRect()]. *)
Definition resizeEvent (left top height : Z) (e : VTextEdit) : VTextEdit :=
  if negb (LineNumberType.eqb (m_lineNumberType e) LineNumberType.None)
  then call (Area_setGeometry left top (areaWidth e) height) e
  else e.

Definition updateLineNumberAreaMargin (e : VTextEdit) : VTextEdit :=
  let width := 0 in
  let width :=
    if negb (LineNumberType.eqb (m_lineNumberType e) LineNumberType.None)
    then areaWidth e else width in
  if negb (width =? viewportMarginLeft e)
  then setViewportMargins width e
  else e.

Definition updateLineNumberArea (e : VTextEdit) : VTextEdit :=
  if negb (LineNumberType.eqb (m_lineNumberType e) LineNumberType.None) then
    let e :=
      if negb (areaVisible e)
      then set_areaVisible true (updateLineNumberAreaMargin e)
      else e in
    call Area_update e
  else if areaVisible e then
    set_areaVisible false (updateLineNumberAreaMargin e)
  else e.

(** The slot connected to [QTextEdit::cursorPositionChanged];
    [cursorBlock] is [textCursor().block().blockNumber()]. *)
Definition on_cursorPositionChanged (cursorBlock : Z) (e : VTextEdit) : VTextEdit :=
  let e :=
    if m_highlightCursorLineBlock e
    then call (Layout_setCursorLineBlockNumber cursorBlock) e
    else e in
  updateLineNumberArea e.

Definition relayout (e : VTextEdit) : VTextEdit :=
  call Layout_relayout e.

Definition relayoutBlocks (p_blocks : gset Z) (e : VTextEdit) : VTextEdit :=
  call (Layout_relayoutBlocks p_blocks) e.

Definition clearBlockImages (e : VTextEdit) : VTextEdit :=
  let e := call ImageMgr_clear (set_imageMgr (ImageMgr.clear (m_imageMgr e)) e) in
  call Layout_relayout e.

Definition containsImage (p_imageName : string) (e : VTextEdit) : bool :=
  ImageMgr.contains p_imageName (m_imageMgr e).

Definition imageSize (p_imageName : string) (e : VTextEdit) : QSize :=
  match ImageMgr.findImage p_imageName (m_imageMgr e) with
  | Some img => pixmap_size img
  | None => QSize_default
  end.

Definition addImage (p_imageName : string) (p_image : QPixmap)
    (e : VTextEdit) : VTextEdit :=
  if m_blockImageEnabled e
  then call (ImageMgr_addImage p_imageName p_image)
         (set_imageMgr (ImageMgr.addImage p_imageName p_image (m_imageMgr e)) e)
  else e.

Definition removeImage (p_imageName : string) (e : VTextEdit) : VTextEdit :=
  call (ImageMgr_removeImage p_imageName)
    (set_imageMgr (ImageMgr.removeImage p_imageName (m_imageMgr e)) e).

Definition setBlockImageEnabled (p_enabled : bool) (e : VTextEdit) : VTextEdit :=
  if Bool.eqb (m_blockImageEnabled e) p_enabled then e
  else
    let e := set_blockImageEnabled p_enabled e in
    let e := call (Layout_setBlockImageEnabled (m_blockImageEnabled e)) e in
    if negb (m_blockImageEnabled e) then clearBlockImages e else e.

Definition setImageWidthConstrainted (p_enabled : bool) (e : VTextEdit) : VTextEdit :=
  call (Layout_setImageWidthConstrainted p_enabled) e.

Definition setImageLineColor (p_color : QColor) (e : VTextEdit) : VTextEdit :=
  call (Layout_setImageLineColor p_color) e.

Definition setCursorBlockMode (p_mode : CursorBlock.t) (e : VTextEdit) : VTextEdit :=
  if negb (CursorBlock.eqb p_mode (m_cursorBlockMode e)) then
    let e := set_cursorBlockMode p_mode e in
    let e := call (Layout_setCursorBlockMode (m_cursorBlockMode e)) e in
    let e := call Layout_clearLastCursorBlockWidth e in
    setCursorWidth
      (if negb (CursorBlock.eqb (m_cursorBlockMode e) CursorBlock.None)
       then VIRTUAL_CURSOR_BLOCK_WIDTH else 1) e
  else e.

(** [cursorBlock] is [textCursor().block().blockNumber()]. *)
Definition setHighlightCursorLineBlockEnabled (p_enabled : bool) (cursorBlock : Z)
    (e : VTextEdit) : VTextEdit :=
  if negb (Bool.eqb (m_highlightCursorLineBlock e) p_enabled) then
    let e := set_highlightCursorLineBlock p_enabled e in
    let e := call (Layout_setHighlightCursorLineBlockEnabled p_enabled) e in
    if m_highlightCursorLineBlock e
    then call (Layout_setCursorLineBlockNumber cursorBlock) e
    else e
  else e.

Definition setCursorLineBlockBg (p_bg : QColor) (e : VTextEdit) : VTextEdit :=
  call (Layout_setCursorLineBlockBg p_bg) e.

(** ** The document, the layout and the painter *)

(** What the painter reads from a [QTextBlock]: [userState()] and
    [isVisible()].  A document is the sequence of its blocks; the block
    number of a block is its position in the sequence. *)
Record TextBlock := { userState : Z; isVisible : bool }.

(** The part of [blockBoundingRect(block)] the painter uses, after the casts
    [(int)rect.y()] and [(int)rect.height()]. *)
Record Geometry := { rect_y : Z; rect_height : Z }.

(** One call [painter.drawText(0, y, width, height, Qt::AlignRight, text)]
    together with the weight of the painter's font at the time of the call.
    [dt_block] records the number of the block the call was made for. *)
Record DrawText := {
  dt_block : Z;
  dt_x : Z;
  dt_y : Z;
  dt_width : Z;
  dt_height : Z;
  dt_text : string;
  dt_bold : bool
}.

(** Everything [paintLineNumberArea] reads from outside the widget record.
    [VTextDocumentLayout] is not part of the sources: [blockBoundingRect]
    (indexed by block number, -1 for an invalid block handle),
    [findBlockByPosition] (applied to the coordinates of the point) and
    [lineLeading] ([(int)layout->getLineLeading()]) stand for it.
    [scrollValue] is [verticalScrollBar()->value()], [eventTop] and
    [eventBtm] are [p_event->rect().top()] and [.bottom()],
    [cursorBlockNumber] is [textCursor().block().blockNumber()],
    [painterBold] is the weight of the font the new [QPainter] starts with,
    and [assertionsEnabled] tells whether [Q_ASSERT] is compiled in. *)
Record PaintContext := {
  document : list TextBlock;
  blockBoundingRect : Z -> Geometry;
  findBlockByPosition : Z -> Z -> Z;
  lineLeading : Z;
  scrollValue : Z;
  eventTop : Z;
  eventBtm : Z;
  digitHeight : Z;
  lineNumberAreaWidth : Z;
  cursorBlockNumber : Z;
  painterBold : bool;
  assertionsEnabled : bool
}.

(** What a call of [paintLineNumberArea] did: whether the background was
    filled, the texts drawn (in order), and whether a [Q_ASSERT] failed and
    aborted the call. *)
Record PaintResult := {
  pr_filled : bool;
  pr_drawn : list DrawText;
  pr_assertFailed : bool
}.

(** [QString::number(int)]: the decimal representation. *)
Definition QString_number (n : Z) : string := pretty n.

(** The values [userState] is compared with: [(int)BlockState::...]. *)
Abbreviation stateStart := (BlockState.to_int BlockState.CodeBlockStart).
Abbreviation stateCode := (BlockState.to_int BlockState.CodeBlock).
Abbreviation stateEnd := (BlockState.to_int BlockState.CodeBlockEnd).

Definition isCodeBlock (b : TextBlock) : Prop := userState b = stateCode.

Definition isCodeBlockStart (b : TextBlock) : Prop := userState b = stateStart.

Section Painter.
Variable ctx : PaintContext.

(** [VTextEdit::contentOffsetY] *)
Definition contentOffsetY : Z := int_neg (scrollValue ctx).

(** [VTextEdit::firstVisibleBlock]: [QTextDocument::findBlockByNumber]
    returns a valid block exactly for the numbers of the document's
    blocks; [None] is the invalid block. *)
Definition firstVisibleBlock : option nat :=
  let blockNumber := findBlockByPosition ctx 0 (int_neg contentOffsetY) in
  if (0 <=? blockNumber) && (blockNumber <? Z.of_nat (length (document ctx)))
  then Some (Z.to_nat blockNumber)
  else None.

(** [block.blockNumber()] for the handle at position [pos] whose remaining
    blocks are [rest]; the invalid handle past the end has number -1. *)
Definition blockNumberAt (pos : nat) (rest : list TextBlock) : Z :=
  match rest with
  | [] => -1
  | _ :: _ => Z.of_nat pos
  end.

(** [(int)layout->blockBoundingRect(block).height()] *)
Definition boundingHeight (pos : nat) (rest : list TextBlock) : Z :=
  rect_height (blockBoundingRect ctx (blockNumberAt pos rest)).

Definition drawText (pos : nat) (top number : Z) (bold : bool) : DrawText :=
  {| dt_block := Z.of_nat pos;
     dt_x := 0;
     dt_y := int_add top (lineLeading ctx);
     dt_width := lineNumberAreaWidth ctx;
     dt_height := digitHeight ctx;
     dt_text := QString_number number;
     dt_bold := bold |}.

(** *** Code-block numbering *)

(** The inner loop of the [CodeBlock] case: starting at [block.previous()],
    walk backward until a block in state [CodeBlockStart] is found or the
    handle becomes invalid.  [n] is the number of the block the walk
    started from, so the first block inspected is [n - 1]. *)
Fixpoint findCodeBlockStart (n : nat) : option nat :=
  match n with
  | O => None
  | S m =>
      match document ctx !! m with
      | Some startBlock =>
          if userState startBlock =? BlockState.to_int BlockState.CodeBlockStart
          then Some m
          else findCodeBlockStart m
      | None => None
      end
  end.

(** The [switch (blockState)] statement: the value of [number] after it,
    or [None] when [Q_ASSERT(number == 0)] fails. *)
Definition codeBlockSwitch (pos : nat) (blockState number : Z) : option Z :=
  if blockState =? BlockState.to_int BlockState.CodeBlockStart then
    if assertionsEnabled ctx && negb (number =? 0) then None else Some 1
  else if blockState =? BlockState.to_int BlockState.CodeBlockEnd then
    Some 0
  else if blockState =? BlockState.to_int BlockState.CodeBlock then
    if number =? 0 then
      match findCodeBlockStart pos with
      | Some startPos => Some (int_sub (Z.of_nat pos) (Z.of_nat startPos))
      | None => Some number
      end
    else Some number
  else Some number.

(** The [while] loop of the [CodeBlock] mode.  The handle [block] is the
    position [pos] with the blocks [rest] from there on; the loop ends when
    the handle is invalid ([rest] empty) or [top] has passed [eventBtm].
    Returns the texts drawn and whether the assertion failed. *)
Fixpoint paintCodeBlockNumbers (pos : nat) (rest : list TextBlock)
    (number top bottom : Z) : list DrawText * bool :=
  match rest with
  | [] => ([], false)
  | block :: next =>
      if top <=? eventBtm ctx then
        let blockState := userState block in
        match codeBlockSwitch pos blockState number with
        | None => ([], true)
        | Some number =>
            let drawn :=
              if (blockState =? BlockState.to_int BlockState.CodeBlock)
                 && (isVisible block && (bottom >=? eventTop ctx))
              then [drawText pos top number (painterBold ctx)]
              else [] in
            let number :=
              if blockState =? BlockState.to_int BlockState.CodeBlock
              then int_add number 1 else number in
            let top' := bottom in
            let bottom' := int_add top' (boundingHeight (S pos) next) in
            let '(more, failed) :=
              paintCodeBlockNumbers (S pos) next number top' bottom' in
            (drawn ++ more, failed)
        end
      else ([], false)
  end.

(** *** Absolute and relative numbering *)

Section Numbers.
Variable lineNumberType : LineNumberType.t.

(** The body of [if (block.isVisible() && bottom >= eventTop)] up to the
    conversion to a string: the flag [currentLine] and [number]. *)
Definition lineNumber (blockNumber : Z) : bool * Z :=
  let currentLine := false in
  let number := int_add blockNumber 1 in
  if LineNumberType.eqb lineNumberType LineNumberType.Relative then
    let number := int_sub blockNumber (cursorBlockNumber ctx) in
    if number =? 0 then (true, int_add blockNumber 1)
    else if number <? 0 then (currentLine, int_neg number)
    else (currentLine, number)
  else if blockNumber =? cursorBlockNumber ctx then (true, number)
  else (currentLine, number).

(** The [while] loop of the [Absolute] and [Relative] modes.
    [blockNumber] is the loop's own counter; [bold] is the weight of the
    painter's font, switched on before the text of the current line is
    drawn and off after it. *)
Fixpoint paintNumbers (pos : nat) (rest : list TextBlock)
    (blockNumber top bottom : Z) (bold : bool) : list DrawText :=
  match rest with
  | [] => []
  | block :: next =>
      if top <=? eventBtm ctx then
        let '(drawn, bold) :=
          if isVisible block && (bottom >=? eventTop ctx) then
            let '(currentLine, number) := lineNumber blockNumber in
            let bold := if currentLine then true else bold in
            ([drawText pos top number bold],
             if currentLine then false else bold)
          else ([], bold) in
        let top' := bottom in
        let bottom' := int_add top' (boundingHeight (S pos) next) in
        drawn ++ paintNumbers (S pos) next (int_add blockNumber 1)
                   top' bottom' bold
      else []
  end.
End Numbers.

(** *** [VTextEdit::paintLineNumberArea] *)

Definition paintLineNumberArea (e : VTextEdit) : VTextEdit * PaintResult :=
  if LineNumberType.eqb (m_lineNumberType e) LineNumberType.None then
    (set_areaVisible false (updateLineNumberAreaMargin e),
     {| pr_filled := false; pr_drawn := []; pr_assertFailed := false |})
  else
    match firstVisibleBlock with
    | None =>
        (e, {| pr_filled := true; pr_drawn := []; pr_assertFailed := false |})
    | Some pos =>
        let rest := drop pos (document ctx) in
        let blockNumber := blockNumberAt pos rest in
        let rect := blockBoundingRect ctx blockNumber in
        let top := int_add contentOffsetY (rect_y rect) in
        let bottom := int_add top (rect_height rect) in
        if LineNumberType.eqb (m_lineNumberType e) LineNumberType.CodeBlock then
          let '(drawn, failed) :=
            paintCodeBlockNumbers pos rest 0 top bottom in
          (e, {| pr_filled := true; pr_drawn := drawn;
                 pr_assertFailed := failed |})
        else
          (e, {| pr_filled := true;
                 pr_drawn := paintNumbers (m_lineNumberType e) pos rest
                               blockNumber top bottom (painterBold ctx);
                 pr_assertFailed := false |})
    end.

(** *** The blocks a paint call walks over

    The loop header of both loops visits the blocks from the first visible
    one on, as long as the top of the block is not below [eventBtm]; a
    visited block gets its text drawn when it is visible and its bottom is
    not above [eventTop]. *)
Record Visit := {
  v_pos : nat;
  v_block : TextBlock;
  v_top : Z;
  v_bottom : Z
}.

Fixpoint visits (pos : nat) (rest : list TextBlock) (top bottom : Z)
    : list Visit :=
  match rest with
  | [] => []
  | block :: next =>
      if top <=? eventBtm ctx then
        {| v_pos := pos; v_block := block; v_top := top; v_bottom := bottom |}
        :: visits (S pos) next bottom
             (int_add bottom (boundingHeight (S pos) next))
      else []
  end.

Definition visitedBlocks : list Visit :=
  match firstVisibleBlock with
  | None => []
  | Some pos =>
      let rest := drop pos (document ctx) in
      let rect := blockBoundingRect ctx (blockNumberAt pos rest) in
      let top := int_add contentOffsetY (rect_y rect) in
      visits pos rest top (int_add top (rect_height rect))
  end.

Definition inPaintedSpan (v : Visit) : bool :=
  isVisible (v_block v) && (v_bottom v >=? eventTop ctx).

(** What the [Absolute] and [Relative] loop draws for a visited block. *)
Definition numberedVisit (ty : LineNumberType.t) (v : Visit) : option DrawText :=
  if inPaintedSpan v then
    let '(currentLine, number) := lineNumber ty (Z.of_nat (v_pos v)) in
    Some (drawText (v_pos v) (v_top v) number currentLine)
  else None.

(** The call [d] made with a font of weight [b]. *)
Definition withBold (b : bool) (d : DrawText) : DrawText :=
  {| dt_block := dt_block d;
     dt_x := dt_x d;
     dt_y := dt_y d;
     dt_width := dt_width d;
     dt_height := dt_height d;
     dt_text := dt_text d;
     dt_bold := b |}.

(** [d] is the call [d'], except that a call the code makes without switching
    to bold is made in the font the painter has, of weight [b]. *)
Definition drawnAs (b : bool) (d d' : DrawText) : Prop :=
  d = d' \/ (dt_bold d' = false /\ d = withBold b d').

(** The value of [number] with which a block in state [CodeBlock] is
    painted when the loop reaches it with the counter [number]. *)
Definition regionNumber (pos : nat) (number : Z) : Z :=
  if number =? 0 then
    match findCodeBlockStart pos with
    | Some startPos => int_sub (Z.of_nat pos) (Z.of_nat startPos)
    | None => number
    end
  else number.

(** [top] and [bottom] of the first visible block, as computed before the
    loops. *)
Definition firstTop (pos : nat) : Z :=
  int_add contentOffsetY (rect_y (blockBoundingRect ctx (Z.of_nat pos))).

Definition firstBottom (pos : nat) : Z :=
  int_add (firstTop pos) (rect_height (blockBoundingRect ctx (Z.of_nat pos))).
End Painter.

(** ** The widget as a state machine

    The member functions a client or the toolkit can invoke on a constructed
    widget.  [OpPaint] is a paint event for the gutter with its context. *)
Inductive Op :=
| OpCursorBlockWidthUpdated (p_width : Z)
| OpSetLineLeading (p_leading : Q)
| OpResizeEvent (rectLeft rectTop rectHeight : Z)
| OpPaint (ctx : PaintContext)
| OpUpdateLineNumberAreaMargin
| OpUpdateLineNumberArea
| OpCursorPositionChanged (cursorBlock : Z)
| OpClearBlockImages
| OpRelayoutBlocks (p_blocks : gset Z)
| OpAddImage (p_imageName : string) (p_image : QPixmap)
| OpRemoveImage (p_imageName : string)
| OpSetBlockImageEnabled (p_enabled : bool)
| OpSetImageWidthConstrainted (p_enabled : bool)
| OpSetImageLineColor (p_color : QColor)
| OpSetCursorBlockMode (p_mode : CursorBlock.t)
| OpSetHighlightCursorLineBlockEnabled (p_enabled : bool) (cursorBlock : Z)
| OpSetCursorLineBlockBg (p_bg : QColor)
| OpRelayout.

Definition run (op : Op) (e : VTextEdit) : VTextEdit :=
  match op with
  | OpCursorBlockWidthUpdated p_width => on_cursorBlockWidthUpdated p_width e
  | OpSetLineLeading p_leading => setLineLeading p_leading e
  | OpResizeEvent rectLeft rectTop rectHeight =>
      resizeEvent rectLeft rectTop rectHeight e
  | OpPaint ctx => (paintLineNumberArea ctx e).1
  | OpUpdateLineNumberAreaMargin => updateLineNumberAreaMargin e
  | OpUpdateLineNumberArea => updateLineNumberArea e
  | OpCursorPositionChanged cursorBlock => on_cursorPositionChanged cursorBlock e
  | OpClearBlockImages => clearBlockImages e
  | OpRelayoutBlocks p_blocks => relayoutBlocks p_blocks e
  | OpAddImage p_imageName p_image => addImage p_imageName p_image e
  | OpRemoveImage p_imageName => removeImage p_imageName e
  | OpSetBlockImageEnabled p_enabled => setBlockImageEnabled p_enabled e
  | OpSetImageWidthConstrainted p_enabled => setImageWidthConstrainted p_enabled e
  | OpSetImageLineColor p_color => setImageLineColor p_color e
  | OpSetCursorBlockMode p_mode => setCursorBlockMode p_mode e
  | OpSetHighlightCursorLineBlockEnabled p_enabled cursorBlock =>
      setHighlightCursorLineBlockEnabled p_enabled cursorBlock e
  | OpSetCursorLineBlockBg p_bg => setCursorLineBlockBg p_bg e
  | OpRelayout => relayout e
  end.

Definition runAll (ops : list Op) (e : VTextEdit) : VTextEdit :=
  foldl (fun e op => run op e) e ops.

(** The states a widget can be in: constructed, then any sequence of
    operations. *)
Definition reachable (e : VTextEdit) : Prop :=
  exists width ops, e = runAll ops (init width).

(** The image cache holds nothing while block images are disabled. *)
Definition imagesGuarded (e : VTextEdit) : Prop :=
  m_blockImageEnabled e = false -> m_images (m_imageMgr e) = ∅.

(** ** Reading the log of calls *)

(** What the layout was last told by [setBlockImageEnabled], if anything. *)
Definition layoutBlockImageEnabled (cs : list Call) : option bool :=
  foldl (fun told c =>
           match c with
           | Layout_setBlockImageEnabled b => Some b
           | _ => told
           end) None cs.

(** What the layout was last told by [setCursorBlockMode], if anything. *)
Definition layoutCursorBlockMode (cs : list Call) : option CursorBlock.t :=
  foldl (fun told c =>
           match c with
           | Layout_setCursorBlockMode m => Some m
           | _ => told
           end) None cs.

(** What the layout was last told by [setHighlightCursorLineBlockEnabled];
    [false] as long as it was told nothing. *)
Definition layoutHighlight (cs : list Call) : bool :=
  foldl (fun told c =>
           match c with
           | Layout_setHighlightCursorLineBlockEnabled b => b
           | _ => told
           end) false cs.

(** Every [setCursorLineBlockNumber] in the log was made while the layout had
    last been told that highlighting is on. *)
Definition cursorLineWhenHighlighted (cs : list Call) : Prop :=
  forall i n, cs !! i = Some (Layout_setCursorLineBlockNumber n) ->
              layoutHighlight (take i cs) = true.

(** Every [clear()] of the image manager in the log is directly followed by
    a full [relayout()]. *)
Definition clearsRelayout (cs : list Call) : Prop :=
  forall i, cs !! i = Some ImageMgr_clear -> cs !! S i = Some Layout_relayout.

(** The code regions of a document are closed: a block in state
    [CodeBlockStart] or [CodeBlock] is the last block or is followed by a
    block in state [CodeBlock] or [CodeBlockEnd]. *)
Definition closedRegions (doc : list TextBlock) : Prop :=
  forall i b b', doc !! i = Some b -> doc !! S i = Some b' ->
                 isCodeBlockStart b \/ isCodeBlock b ->
                 isCodeBlock b' \/ userState b' = stateEnd.

(** The call [d] is the text of the visited block [v]: it is made for that
    block, right-aligned in the gutter, at the block's top plus the line
    leading. *)
Definition drawnFor (ctx : PaintContext) (d : DrawText) (v : Visit) : Prop :=
  dt_block d = Z.of_nat (v_pos v)
  /\ dt_x d = 0
  /\ dt_y d = int_add (v_top v) (lineLeading ctx)
  /\ dt_width d = lineNumberAreaWidth ctx
  /\ dt_height d = digitHeight ctx.

(** ** Sample documents and widgets *)
Module Sample.
Definition block (s : BlockState.t) : TextBlock :=
  {| userState := BlockState.to_int s; isVisible := true |}.

(** Every block ten pixels high, a gutter showing the first hundred
    pixels, no scrolling. *)
Definition context (doc : list TextBlock) (first cursor : Z)
    (assertions : bool) : PaintContext :=
  {| document := doc;
     blockBoundingRect := fun n => {| rect_y := 10 * n; rect_height := 10 |};
     findBlockByPosition := fun _ _ => first;
     lineLeading := 2;
     scrollValue := 0;
     eventTop := 0;
     eventBtm := 100;
     digitHeight := 12;
     lineNumberAreaWidth := 30;
     cursorBlockNumber := cursor;
     painterBold := false;
     assertionsEnabled := assertions |}.

Definition widget (ty : LineNumberType.t) (images : bool) : VTextEdit :=
  {| m_lineNumberType := ty;
     m_blockImageEnabled := images;
     m_cursorBlockMode := CursorBlock.None;
     m_highlightCursorLineBlock := false;
     m_imageMgr := ImageMgr.new;
     cursorWidth := 1;
     viewportMarginLeft := 0;
     areaVisible := true;
     areaWidth := 30;
     editorVisible := true;
     calls := [] |}.

Definition image : QPixmap :=
  {| pixmap_size := {| size_width := 16; size_height := 9 |};
     pixmap_data := [1; 2; 3] |}.

Import BlockState.

Definition fenced : list TextBlock :=
  [block Normal; block CodeBlockStart; block CodeBlock; block CodeBlock;
   block CodeBlock; block CodeBlockEnd; block Normal].

Definition unfenced : list TextBlock :=
  [block CodeBlock; block CodeBlock; block Normal].

(** A closed region followed by a block in state [CodeBlock] that belongs
    to no region. *)
Definition trailing : list TextBlock :=
  [block CodeBlockStart; block CodeBlock; block CodeBlockEnd;
   block CodeBlock; block Normal].

(** The same geometry as [context], with a painter whose font is bold when
    the paint call begins. *)
Definition boldContext (doc : list TextBlock) (first cursor : Z)
    (assertions : bool) : PaintContext :=
  {| document := doc;
     blockBoundingRect := fun n => {| rect_y := 10 * n; rect_height := 10 |};
     findBlockByPosition := fun _ _ => first;
     lineLeading := 2;
     scrollValue := 0;
     eventTop := 0;
     eventBtm := 100;
     digitHeight := 12;
     lineNumberAreaWidth := 30;
     cursorBlockNumber := cursor;
     painterBold := true;
     assertionsEnabled := assertions |}.
End Sample.

(** * Proofs *)

(** A hypothesis of membership in a list that reduces to the empty list
    closes the goal. *)
Ltac in_nil :=
  match goal with
  | H : _ ∈ _ |- _ => solve [apply elem_of_nil in H; contradiction]
  end.

(** ** Arithmetic on [int] within range *)

Lemma int_wrap_id z : in_int z -> int_wrap z = z.
Proof.
  unfold in_int, INT_MIN, INT_MAX, int_wrap. intros H.
  rewrite Z.mod_small; lia.
Qed.

Lemma int_succ (n : nat) :
  Z.of_nat n < INT_MAX -> int_add (Z.of_nat n) 1 = Z.of_nat (S n).
Proof.
  intros H. unfold int_add. rewrite int_wrap_id.
  - lia.
  - unfold in_int, INT_MIN, INT_MAX in *. lia.
Qed.

Section PainterFacts.
Variable ctx : PaintContext.

Lemma visits_lookup pos rest top bottom v :
  v ∈ visits ctx pos rest top bottom ->
  (pos <= v_pos v)%nat /\ rest !! (v_pos v - pos)%nat = Some (v_block v).
Proof.
  revert pos top bottom.
  induction rest as [|block next IH]; intros pos top bottom; simpl.
  - intros H. in_nil.
  - destruct (top <=? eventBtm ctx).
    + intros H. apply elem_of_cons in H. destruct H as [-> | H].
      * simpl. rewrite Nat.sub_diag. split; [lia | reflexivity].
      * apply IH in H. destruct H as [Hle Hl]. split; [lia|].
        replace (v_pos v - pos)%nat with (S (v_pos v - S pos)) by lia.
        exact Hl.
    + intros H. in_nil.
Qed.

Lemma visits_bound pos rest top bottom v :
  v ∈ visits ctx pos rest top bottom ->
  (pos <= v_pos v < pos + length rest)%nat.
Proof.
  intros H. apply visits_lookup in H. destruct H as [Hle Hl].
  apply lookup_lt_Some in Hl. lia.
Qed.

Lemma paintNumbers_visits ty rest : forall pos top bottom,
  Z.of_nat pos + Z.of_nat (length rest) <= INT_MAX ->
  paintNumbers ctx ty pos rest (Z.of_nat pos) top bottom false
  = omap (numberedVisit ctx ty) (visits ctx pos rest top bottom).
Proof.
  induction rest as [|block next IH]; intros pos top bottom Hlen; simpl.
  - reflexivity.
  - destruct (top <=? eventBtm ctx); [|reflexivity].
    simpl in Hlen.
    rewrite int_succ by lia.
    unfold numberedVisit at 1, inPaintedSpan. simpl.
    destruct (isVisible block && (bottom >=? eventTop ctx)).
    + destruct (lineNumber ctx ty (Z.of_nat pos)) as [currentLine number].
      replace (if currentLine then true else false) with currentLine
        by (destruct currentLine; reflexivity).
      replace (if currentLine then false else currentLine) with false
        by (destruct currentLine; reflexivity).
      simpl. f_equal. apply IH. lia.
    + simpl. apply IH. lia.
Qed.
Lemma lineNumber_Absolute blockNumber :
  0 <= blockNumber < INT_MAX ->
  lineNumber ctx LineNumberType.Absolute blockNumber
  = (blockNumber =? cursorBlockNumber ctx, blockNumber + 1).
Proof.
  intros H. unfold lineNumber. simpl.
  unfold int_add. rewrite int_wrap_id
    by (unfold in_int, INT_MIN, INT_MAX in *; lia).
  destruct (blockNumber =? cursorBlockNumber ctx); reflexivity.
Qed.

Lemma lineNumber_Relative blockNumber :
  0 <= blockNumber < INT_MAX ->
  0 <= cursorBlockNumber ctx <= INT_MAX ->
  lineNumber ctx LineNumberType.Relative blockNumber
  = if blockNumber =? cursorBlockNumber ctx
    then (true, blockNumber + 1)
    else (false, Z.abs (blockNumber - cursorBlockNumber ctx)).
Proof.
  intros H Hc. unfold lineNumber. simpl.
  unfold int_add, int_sub, int_neg.
  rewrite !(int_wrap_id (_ - _)), !(int_wrap_id (_ + _))
    by (unfold in_int, INT_MIN, INT_MAX in *; lia).
  destruct (Z.eqb_spec (blockNumber - cursorBlockNumber ctx) 0) as [E|E];
    destruct (Z.eqb_spec blockNumber (cursorBlockNumber ctx)) as [E'|E'];
    try lia; try reflexivity.
  destruct (Z.ltb_spec (blockNumber - cursorBlockNumber ctx) 0) as [L|L].
  - rewrite int_wrap_id by (unfold in_int, INT_MIN, INT_MAX in *; lia).
    f_equal. lia.
  - f_equal. lia.
Qed.
Lemma firstVisibleBlock_valid pos :
  firstVisibleBlock ctx = Some pos -> (pos < length (document ctx))%nat.
Proof.
  unfold firstVisibleBlock.
  destruct (Z.leb_spec 0 (findBlockByPosition ctx 0 (int_neg (contentOffsetY ctx))));
    destruct (Z.ltb_spec (findBlockByPosition ctx 0 (int_neg (contentOffsetY ctx)))
                (Z.of_nat (length (document ctx)))); simpl; try discriminate.
  intros [= <-]. lia.
Qed.

Lemma blockNumberAt_valid pos :
  (pos < length (document ctx))%nat ->
  blockNumberAt pos (drop pos (document ctx)) = Z.of_nat pos.
Proof.
  intros H. destruct (lookup_lt_is_Some_2 _ _ H) as [b Hb].
  rewrite (drop_S _ _ _ Hb). reflexivity.
Qed.

Lemma drawnAs_same b (l : list DrawText) : Forall2 (drawnAs b) l l.
Proof. induction l; constructor; [left; reflexivity | assumption]. Qed.

Lemma paintNumbers_bold ty rest : forall pos blockNumber top bottom bold,
  Forall2 (drawnAs bold)
    (paintNumbers ctx ty pos rest blockNumber top bottom bold)
    (paintNumbers ctx ty pos rest blockNumber top bottom false).
Proof.
  induction rest as [|block next IH]; intros pos blockNumber top bottom bold;
    simpl; [constructor|].
  destruct (top <=? eventBtm ctx); [|constructor].
  destruct (isVisible block && (bottom >=? eventTop ctx)); [|apply IH].
  destruct (lineNumber ctx ty blockNumber) as [[|] number]; simpl.
  - constructor; [left; reflexivity | apply drawnAs_same].
  - constructor; [right; split; reflexivity | apply IH].
Qed.

Lemma paintLineNumberArea_numbers e :
  m_lineNumberType e = LineNumberType.Absolute
  \/ m_lineNumberType e = LineNumberType.Relative ->
  Z.of_nat (length (document ctx)) <= INT_MAX ->
  Forall2 (drawnAs (painterBold ctx))
    (pr_drawn (paintLineNumberArea ctx e).2)
    (omap (numberedVisit ctx (m_lineNumberType e)) (visitedBlocks ctx)).
Proof.
  intros Hty Hlen. unfold paintLineNumberArea, visitedBlocks.
  destruct (firstVisibleBlock ctx) as [pos|] eqn:Hfirst.
  - pose proof (firstVisibleBlock_valid _ Hfirst) as Hpos.
    rewrite (blockNumberAt_valid _ Hpos).
    destruct Hty as [-> | ->]; simpl;
      (rewrite <- paintNumbers_visits by (rewrite length_drop; lia));
      apply paintNumbers_bold.
  - destruct Hty as [-> | ->]; constructor.
Qed.

(** Every text drawn in the [Absolute] or [Relative] mode belongs to a
    visited block inside the painted span, and every such block has its
    text drawn. *)
Lemma numbers_drawn_visit e d :
  m_lineNumberType e = LineNumberType.Absolute
  \/ m_lineNumberType e = LineNumberType.Relative ->
  Z.of_nat (length (document ctx)) <= INT_MAX ->
  d ∈ pr_drawn (paintLineNumberArea ctx e).2 ->
  exists v d', v ∈ visitedBlocks ctx
               /\ numberedVisit ctx (m_lineNumberType e) v = Some d'
               /\ drawnAs (painterBold ctx) d d'.
Proof.
  intros Hty Hlen Hd. apply list_elem_of_lookup in Hd. destruct Hd as [i Hi].
  destruct (Forall2_lookup_l _ _ _ _ _ (paintLineNumberArea_numbers e Hty Hlen) Hi)
    as (d' & Hi' & Hrel).
  assert (Hd' : d' ∈ omap (numberedVisit ctx (m_lineNumberType e))
                       (visitedBlocks ctx))
    by (apply list_elem_of_lookup; eauto).
  apply list_elem_of_omap in Hd'. destruct Hd' as (v & Hv & Hnv).
  exists v, d'. auto.
Qed.

Lemma numbers_visit_drawn e v d' :
  m_lineNumberType e = LineNumberType.Absolute
  \/ m_lineNumberType e = LineNumberType.Relative ->
  Z.of_nat (length (document ctx)) <= INT_MAX ->
  v ∈ visitedBlocks ctx ->
  numberedVisit ctx (m_lineNumberType e) v = Some d' ->
  exists d, d ∈ pr_drawn (paintLineNumberArea ctx e).2
            /\ drawnAs (painterBold ctx) d d'.
Proof.
  intros Hty Hlen Hv Hnv.
  assert (Hd' : d' ∈ omap (numberedVisit ctx (m_lineNumberType e))
                       (visitedBlocks ctx))
    by (apply list_elem_of_omap; eauto).
  apply list_elem_of_lookup in Hd'. destruct Hd' as [i Hi].
  destruct (Forall2_lookup_r _ _ _ _ _ (paintLineNumberArea_numbers e Hty Hlen) Hi)
    as (d & Hi' & Hrel).
  exists d. split; [apply list_elem_of_lookup; eauto | exact Hrel].
Qed.

Lemma visitedBlocks_bound v :
  v ∈ visitedBlocks ctx -> (v_pos v < length (document ctx))%nat.
Proof.
  unfold visitedBlocks.
  destruct (firstVisibleBlock ctx) as [pos|] eqn:Hfirst.
  - intros H. apply visits_bound in H.
    pose proof (firstVisibleBlock_valid _ Hfirst).
    rewrite length_drop in H. lia.
  - intros H. in_nil.
Qed.


(** Code-block numbering *)

Lemma codeBlock_drawn rest : forall pos number top bottom d,
  d ∈ (paintCodeBlockNumbers ctx pos rest number top bottom).1 ->
  exists p b, dt_block d = Z.of_nat p /\ (pos <= p)%nat
              /\ rest !! (p - pos)%nat = Some b /\ userState b = stateCode.
Proof.
  induction rest as [|block next IH]; intros pos number top bottom d; simpl.
  - intros H. in_nil.
  - destruct (top <=? eventBtm ctx); [|intros H; in_nil].
    destruct (codeBlockSwitch ctx pos (userState block) number) as [number'|];
      [|intros H; in_nil].
    destruct (paintCodeBlockNumbers ctx (S pos) next _ _ _) as [more failed] eqn:Hrec.
    simpl. intros H. apply elem_of_app in H. destruct H as [H | H].
    + destruct (Z.eqb_spec (userState block) 2) as [E|E]; simpl in H; [|in_nil].
      destruct (isVisible block && (bottom >=? eventTop ctx)); [|in_nil].
      apply list_elem_of_singleton in H. subst d.
      exists pos, block. rewrite Nat.sub_diag. simpl. auto.
    + change more with (more, failed).1 in H. rewrite <- Hrec in H.
      destruct (IH _ _ _ _ _ H) as (p & b & Hd & Hle & Hl & Hb).
      exists p, b. repeat split; [exact Hd | lia | | exact Hb].
      replace (p - pos)%nat with (S (p - S pos)) by lia. exact Hl.
Qed.

Lemma codeBlock_failed rest : forall pos number top bottom,
  (paintCodeBlockNumbers ctx pos rest number top bottom).2 = true ->
  assertionsEnabled ctx = true
  /\ exists b, b ∈ rest /\ userState b = stateStart.
Proof.
  induction rest as [|block next IH]; intros pos number top bottom; simpl.
  - discriminate.
  - destruct (top <=? eventBtm ctx); [|discriminate].
    destruct (codeBlockSwitch ctx pos (userState block) number)
      as [number'|] eqn:Hsw.
    + destruct (paintCodeBlockNumbers ctx (S pos) next _ _ _)
        as [more failed] eqn:Hrec.
      simpl. intros Hf.
      change failed with (more, failed).2 in Hf. rewrite <- Hrec in Hf.
      destruct (IH _ _ _ _ Hf) as (Ha & b & Hb & Hs).
      split; [exact Ha|]. exists b. split; [|exact Hs].
      apply list_elem_of_further, Hb.
    + intros _. unfold codeBlockSwitch in Hsw.
      destruct (Z.eqb_spec (userState block) stateStart) as [E|E].
      * destruct (assertionsEnabled ctx); [|discriminate].
        split; [reflexivity|]. exists block. split; [apply list_elem_of_here | exact E].
      * destruct (userState block =? stateEnd); [discriminate|].
        destruct (userState block =? stateCode); [|discriminate].
        destruct (number =? 0); [|discriminate].
        destruct (findCodeBlockStart ctx pos); discriminate.
Qed.

Lemma codeBlockSwitch_code pos number :
  codeBlockSwitch ctx pos stateCode number = Some (regionNumber ctx pos number).
Proof.
  unfold codeBlockSwitch, regionNumber. simpl.
  destruct (number =? 0); [|reflexivity].
  destruct (findCodeBlockStart ctx pos); reflexivity.
Qed.

Lemma regionNumber_pos pos number : number <> 0 -> regionNumber ctx pos number = number.
Proof.
  intros H. unfold regionNumber.
  destruct (Z.eqb_spec number 0); [contradiction | reflexivity].
Qed.

Lemma codeBlock_run run : forall post pos number top bottom,
  Forall isCodeBlock run ->
  0 <= regionNumber ctx pos number ->
  regionNumber ctx pos number + Z.of_nat (length run) <= INT_MAX ->
  let drawn := (paintCodeBlockNumbers ctx pos (run ++ post) number top bottom).1 in
  (forall d, d ∈ drawn ->
     dt_block d < Z.of_nat pos + Z.of_nat (length run) ->
     dt_text d
     = QString_number (regionNumber ctx pos number + (dt_block d - Z.of_nat pos)))
  /\ (forall v, v ∈ visits ctx pos (run ++ post) top bottom ->
        (v_pos v < pos + length run)%nat ->
        inPaintedSpan ctx v = true ->
        drawText ctx (v_pos v) (v_top v)
          (regionNumber ctx pos number + (Z.of_nat (v_pos v) - Z.of_nat pos))
          (painterBold ctx) ∈ drawn).
Proof.
  induction run as [|block run IH];
    intros post pos number top bottom Hrun Hlo Hhi drawn; subst drawn.
  - split.
    + intros d Hd Hlt. apply codeBlock_drawn in Hd.
      destruct Hd as (p & b & Hp & Hle & _). simpl in Hlt. lia.
    + intros v Hv Hlt. apply visits_bound in Hv. simpl in Hlt. lia.
  - apply Forall_cons in Hrun. destruct Hrun as [Hb Hrun].
    unfold isCodeBlock in Hb.
    cbn [app paintCodeBlockNumbers visits length] in *.
    destruct (top <=? eventBtm ctx).
    2:{ split; [intros d Hd|intros v Hv]; in_nil. }
    rewrite Hb, codeBlockSwitch_code. cbn [Z.eqb BlockState.to_int Pos.eqb andb].
    set (n0 := regionNumber ctx pos number) in *.
    assert (Hn1 : int_add n0 1 = n0 + 1).
    { unfold int_add. apply int_wrap_id. unfold in_int, INT_MIN, INT_MAX in *. lia. }
    rewrite Hn1.
    specialize (IH post (S pos) (n0 + 1) bottom
                  (int_add bottom (boundingHeight ctx (S pos) (run ++ post))) Hrun).
    rewrite regionNumber_pos in IH by lia.
    destruct IH as [IH1 IH2]; [lia | lia |].
    destruct (paintCodeBlockNumbers ctx (S pos) (run ++ post) _ _ _)
      as [more failed] eqn:Hrec.
    cbn [fst] in *. split.
    + intros d Hd Hlt. apply elem_of_app in Hd. destruct Hd as [Hd | Hd].
      * destruct (isVisible block && (bottom >=? eventTop ctx)); [|in_nil].
        apply list_elem_of_singleton in Hd. subst d. simpl.
        f_equal. lia.
      * rewrite (IH1 d Hd) by lia. f_equal. lia.
    + intros v Hv Hlt Hp. apply elem_of_cons in Hv.
      apply elem_of_app. destruct Hv as [-> | Hv].
      * left. unfold inPaintedSpan in Hp. simpl in *. rewrite Hp.
        apply list_elem_of_singleton. f_equal. lia.
      * right. specialize (IH2 v Hv).
        replace (n0 + (Z.of_nat (v_pos v) - Z.of_nat pos))
          with (n0 + 1 + (Z.of_nat (v_pos v) - Z.of_nat (S pos))) by lia.
        apply IH2; [lia | exact Hp].
Qed.

Lemma findCodeBlockStart_found n : forall s b,
  (s < n <= length (document ctx))%nat ->
  document ctx !! s = Some b ->
  userState b = stateStart ->
  (forall i b', (s < i < n)%nat -> document ctx !! i = Some b' ->
                userState b' <> stateStart) ->
  findCodeBlockStart ctx n = Some s.
Proof.
  induction n as [|m IH]; intros s b Hs Hb Hstart Hnone; [lia|].
  simpl. destruct (document ctx !! m) as [bm|] eqn:Hm.
  - destruct (Z.eqb_spec (userState bm) 1) as [E|E].
    + destruct (Nat.eq_dec s m) as [->|Hne]; [reflexivity|].
      exfalso. apply (Hnone m bm); [lia | exact Hm | exact E].
    + destruct (Nat.eq_dec s m) as [->|Hne].
      * rewrite Hb in Hm. injection Hm as ->. contradiction.
      * apply (IH s b); try assumption; [lia|].
        intros i b' Hi. apply Hnone. lia.
  - apply lookup_ge_None in Hm. lia.
Qed.

Lemma findCodeBlockStart_none n :
  (forall i b', (i < n)%nat -> document ctx !! i = Some b' ->
                userState b' <> stateStart) ->
  findCodeBlockStart ctx n = None.
Proof.
  induction n as [|m IH]; intros Hnone; [reflexivity|].
  simpl. destruct (document ctx !! m) as [bm|] eqn:Hm; [|reflexivity].
  destruct (Z.eqb_spec (userState bm) 1) as [E|E].
  - exfalso. apply (Hnone m bm); [lia | exact Hm | exact E].
  - apply IH. intros i b' Hi. apply Hnone. lia.
Qed.

Lemma codeBlock_sorted rest : forall pos number top bottom,
  StronglySorted Z.lt
    (map dt_block (paintCodeBlockNumbers ctx pos rest number top bottom).1).
Proof.
  induction rest as [|block next IH]; intros pos number top bottom; simpl.
  - constructor.
  - destruct (top <=? eventBtm ctx); [|constructor].
    destruct (codeBlockSwitch ctx pos (userState block) number) as [number'|];
      [|constructor].
    pose proof (codeBlock_drawn next (S pos)
                  (if userState block =? 2 then int_add number' 1 else number')
                  bottom (int_add bottom (boundingHeight ctx (S pos) next)))
      as Hge.
    specialize (IH (S pos)
                  (if userState block =? 2 then int_add number' 1 else number')
                  bottom (int_add bottom (boundingHeight ctx (S pos) next))).
    destruct (paintCodeBlockNumbers ctx (S pos) next _ _ _) as [more failed].
    simpl in *.
    destruct ((userState block =? 2)
              && (isVisible block && (bottom >=? eventTop ctx))); simpl;
      [|exact IH].
    constructor; [exact IH|].
    apply Forall_forall. intros z Hz. apply list_elem_of_In, in_map_iff in Hz.
    destruct Hz as (d & <- & Hd). apply list_elem_of_In in Hd.
    destruct (Hge d Hd) as (p & _ & -> & Hle & _). lia.
Qed.

Lemma paintLineNumberArea_codeBlock e pos :
  m_lineNumberType e = LineNumberType.CodeBlock ->
  firstVisibleBlock ctx = Some pos ->
  pr_drawn (paintLineNumberArea ctx e).2
  = (paintCodeBlockNumbers ctx pos (drop pos (document ctx)) 0
       (firstTop ctx pos) (firstBottom ctx pos)).1
  /\ pr_assertFailed (paintLineNumberArea ctx e).2
     = (paintCodeBlockNumbers ctx pos (drop pos (document ctx)) 0
          (firstTop ctx pos) (firstBottom ctx pos)).2.
Proof.
  intros Hty Hfirst. unfold paintLineNumberArea. rewrite Hty, Hfirst. simpl.
  rewrite (blockNumberAt_valid _ (firstVisibleBlock_valid _ Hfirst)).
  unfold firstBottom, firstTop.
  destruct (paintCodeBlockNumbers ctx pos _ _ _ _); split; reflexivity.
Qed.

Lemma visitedBlocks_first pos :
  firstVisibleBlock ctx = Some pos ->
  visitedBlocks ctx
  = visits ctx pos (drop pos (document ctx)) (firstTop ctx pos) (firstBottom ctx pos).
Proof.
  intros Hfirst. unfold visitedBlocks. rewrite Hfirst.
  rewrite (blockNumberAt_valid _ (firstVisibleBlock_valid _ Hfirst)).
  reflexivity.
Qed.

Lemma codeBlock_only e d :
  m_lineNumberType e = LineNumberType.CodeBlock ->
  d ∈ pr_drawn (paintLineNumberArea ctx e).2 ->
  exists b, document ctx !! Z.to_nat (dt_block d) = Some b /\ isCodeBlock b.
Proof.
  intros Hty Hd.
  destruct (firstVisibleBlock ctx) as [pos|] eqn:Hfirst.
  - destruct (paintLineNumberArea_codeBlock e pos Hty Hfirst) as [Heq _].
    rewrite Heq in Hd. apply codeBlock_drawn in Hd.
    destruct Hd as (p & b & -> & Hle & Hl & Hb).
    exists b. rewrite Nat2Z.id. split; [|exact Hb].
    rewrite lookup_drop in Hl.
    replace (pos + (p - pos))%nat with p in Hl by lia. exact Hl.
  - unfold paintLineNumberArea in Hd. rewrite Hty, Hfirst in Hd. simpl in Hd.
    in_nil.
Qed.


(** Painting a stretch [mid] of blocks before the blocks [rest]: either
    the loop reaches [rest] (with some counter and geometry), or it ends
    inside [mid], by a failed assertion or because it has left the event
    rectangle. *)
Lemma codeBlock_prefix mid : forall rest pos number top bottom,
  (exists number' top' bottom' dm vm,
      paintCodeBlockNumbers ctx pos (mid ++ rest) number top bottom
      = (dm ++ (paintCodeBlockNumbers ctx (pos + length mid) rest
                  number' top' bottom').1,
         (paintCodeBlockNumbers ctx (pos + length mid) rest
            number' top' bottom').2)
      /\ visits ctx pos (mid ++ rest) top bottom
         = vm ++ visits ctx (pos + length mid) rest top' bottom'
      /\ (forall d, d ∈ dm -> dt_block d < Z.of_nat (pos + length mid))
      /\ (forall v, v ∈ vm -> (v_pos v < pos + length mid)%nat))
  \/ ((forall d,
         d ∈ (paintCodeBlockNumbers ctx pos (mid ++ rest) number top bottom).1 ->
         dt_block d < Z.of_nat (pos + length mid))
      /\ ((paintCodeBlockNumbers ctx pos (mid ++ rest) number top bottom).2 = true
          \/ forall v, v ∈ visits ctx pos (mid ++ rest) top bottom ->
                       (v_pos v < pos + length mid)%nat)).
Proof.
  induction mid as [|block mid IH]; intros rest pos number top bottom.
  - left. exists number, top, bottom, [], []. simpl.
    rewrite Nat.add_0_r.
    destruct (paintCodeBlockNumbers ctx pos rest number top bottom).
    repeat split; intros x Hx; in_nil.
  - cbn [app paintCodeBlockNumbers visits length].
    destruct (top <=? eventBtm ctx).
    2:{ right. split; [|right]; intros x Hx; in_nil. }
    destruct (codeBlockSwitch ctx pos (userState block) number) as [number1|].
    2:{ right. split; [|left; reflexivity]. intros x Hx; in_nil. }
    set (drawn := if (userState block =? BlockState.to_int BlockState.CodeBlock)
                     && (isVisible block && (bottom >=? eventTop ctx))
                  then [drawText ctx pos top number1 (painterBold ctx)]
                  else []).
    assert (Hdrawn : forall d, d ∈ drawn -> dt_block d = Z.of_nat pos).
    { subst drawn. intros d Hd. destruct (_ && _).
      - apply list_elem_of_singleton in Hd. subst d. reflexivity.
      - in_nil. }
    set (number2 := if userState block =? BlockState.to_int BlockState.CodeBlock
                    then int_add number1 1 else number1).
    set (bottom2 := int_add bottom (boundingHeight ctx (S pos) (mid ++ rest))).
    replace (pos + S (length mid))%nat with (S pos + length mid)%nat by lia.
    destruct (IH rest (S pos) number2 bottom bottom2)
      as [(number' & top' & bottom' & dm & vm & Hp & Hv & Hdm & Hvm)
         | [Hd Hstop]].
    + left. exists number', top', bottom', (drawn ++ dm),
        ({| v_pos := pos; v_block := block; v_top := top; v_bottom := bottom |}
           :: vm).
      rewrite Hp, Hv. cbn [fst snd]. rewrite <- app_assoc.
      repeat split.
      * intros d Hin. apply elem_of_app in Hin. destruct Hin as [Hin | Hin].
        -- rewrite (Hdrawn d Hin). lia.
        -- apply Hdm, Hin.
      * intros v Hin. apply elem_of_cons in Hin. destruct Hin as [-> | Hin].
        -- simpl. lia.
        -- apply Hvm, Hin.
    + right.
      destruct (paintCodeBlockNumbers ctx (S pos) (mid ++ rest) number2
                  bottom bottom2) as [more failed].
      cbn [fst snd] in *. split.
      * intros d Hin. apply elem_of_app in Hin. destruct Hin as [Hin | Hin].
        -- rewrite (Hdrawn d Hin). lia.
        -- apply Hd, Hin.
      * destruct Hstop as [Hf | Hvs]; [left; exact Hf | right].
        intros v Hin. apply elem_of_cons in Hin. destruct Hin as [-> | Hin].
        -- simpl. lia.
        -- apply Hvs, Hin.
Qed.

Lemma paint_without_assertions e :
  assertionsEnabled ctx = false ->
  pr_assertFailed (paintLineNumberArea ctx e).2 = false.
Proof.
  intros Hoff. unfold paintLineNumberArea.
  destruct (LineNumberType.eqb (m_lineNumberType e) LineNumberType.None);
    [reflexivity|].
  destruct (firstVisibleBlock ctx) as [pos|]; [|reflexivity].
  destruct (LineNumberType.eqb (m_lineNumberType e) LineNumberType.CodeBlock);
    [|reflexivity].
  destruct (paintCodeBlockNumbers ctx pos _ _ _ _) as [drawn failed] eqn:Hp.
  simpl. destruct failed; [|reflexivity].
  apply (f_equal snd) in Hp. apply codeBlock_failed in Hp.
  destruct Hp as [Hon _]. congruence.
Qed.

Lemma codeBlock_region start run end_post pos number top bottom :
  userState start = stateStart ->
  Forall isCodeBlock run ->
  1 + Z.of_nat (length run) <= INT_MAX ->
  number = 0
  \/ (paintCodeBlockNumbers ctx pos (start :: run ++ end_post)
        number top bottom).2 = false ->
  let drawn :=
    (paintCodeBlockNumbers ctx pos (start :: run ++ end_post)
       number top bottom).1 in
  (forall d, d ∈ drawn ->
     dt_block d <= Z.of_nat pos + Z.of_nat (length run) ->
     Z.of_nat pos < dt_block d
     /\ dt_text d = QString_number (dt_block d - Z.of_nat pos))
  /\ (forall v, v ∈ visits ctx pos (start :: run ++ end_post) top bottom ->
        (pos < v_pos v <= pos + length run)%nat ->
        inPaintedSpan ctx v = true ->
        drawText ctx (v_pos v) (v_top v)
          (Z.of_nat (v_pos v) - Z.of_nat pos) (painterBold ctx) ∈ drawn).
Proof.
  intros Hstart Hrun Hlen Hok drawn. subst drawn. revert Hok.
  cbn [paintCodeBlockNumbers visits].
  destruct (top <=? eventBtm ctx).
  2:{ intros _. split; [intros d Hd|intros v Hv]; in_nil. }
  rewrite Hstart. intros Hok.
  assert (Hsw : codeBlockSwitch ctx pos stateStart number = Some 1).
  { unfold codeBlockSwitch in *. simpl in *.
    destruct Hok as [-> | Hok]; [rewrite andb_false_r; reflexivity|].
    destruct (assertionsEnabled ctx && negb (number =? 0));
      [discriminate | reflexivity]. }
  clear Hok. rewrite Hsw. cbn [Z.eqb BlockState.to_int Pos.eqb andb].
  pose proof (codeBlock_run run end_post (S pos) 1 bottom
                (int_add bottom (boundingHeight ctx (S pos) (run ++ end_post)))
                Hrun) as Hr.
  rewrite regionNumber_pos in Hr by lia.
  destruct Hr as [H1 H2]; [lia | lia |].
  destruct (paintCodeBlockNumbers ctx (S pos) (run ++ end_post) _ _ _)
    as [more failed] eqn:Hrec.
  cbn [fst app] in *. split.
  + intros d Hd Hle.
    pose proof Hd as Hd'. change more with (more, failed).1 in Hd'.
    rewrite <- Hrec in Hd'. apply codeBlock_drawn in Hd'.
    destruct Hd' as (p & _ & Hp & Hge & _).
    split; [lia|]. rewrite (H1 d Hd) by lia. f_equal. lia.
  + intros v Hv Hrange Hp. apply elem_of_cons in Hv.
    destruct Hv as [-> | Hv]; [simpl in Hrange; lia|].
    replace (Z.of_nat (v_pos v) - Z.of_nat pos)
      with (1 + (Z.of_nat (v_pos v) - Z.of_nat (S pos))) by lia.
    apply H2; [exact Hv | lia | exact Hp].
Qed.
End PainterFacts.

(** C1, as amended: in [CodeBlock] numbering mode, for a region
    [CodeBlockStart, CodeBlock x k, CodeBlockEnd] whose start block the paint
    call reaches (painting begins at the start block, or at an earlier block
    and no assertion aborts the call), the text drawn for the j-th
    [CodeBlock] block of the region is the number j, for j = 1..k, and every
    such block that is visited, visible and inside the event rectangle gets
    that text drawn; texts are drawn in block order; no text is drawn for the
    [CodeBlockStart] block, for the [CodeBlockEnd] block or for any block
    that is not in state [CodeBlock] (a block in state [CodeBlock] is
    painted whether or not it lies in a region); and [CodeBlockEnd] sets the
    counter to 0. *)
Theorem code_region_numbers ctx e pre start run end_ post f :
  m_lineNumberType e = LineNumberType.CodeBlock ->
  document ctx = pre ++ start :: run ++ end_ :: post ->
  isCodeBlockStart start ->
  Forall isCodeBlock run ->
  userState end_ = stateEnd ->
  firstVisibleBlock ctx = Some f ->
  (f <= length pre)%nat ->
  f = length pre \/ pr_assertFailed (paintLineNumberArea ctx e).2 = false ->
  Z.of_nat (length (document ctx)) <= INT_MAX ->
  let drawn := pr_drawn (paintLineNumberArea ctx e).2 in
  let first := Z.of_nat (length pre) in
  let k := Z.of_nat (length run) in
  (forall d, d ∈ drawn -> first < dt_block d <= first + k ->
     dt_text d = QString_number (dt_block d - first))
  /\ (forall v, v ∈ visitedBlocks ctx ->
        first < Z.of_nat (v_pos v) <= first + k ->
        inPaintedSpan ctx v = true ->
        drawText ctx (v_pos v) (v_top v) (Z.of_nat (v_pos v) - first)
          (painterBold ctx) ∈ drawn)
  /\ (forall d, d ∈ drawn ->
        dt_block d <> first /\ dt_block d <> first + k + 1
        /\ exists b, document ctx !! Z.to_nat (dt_block d) = Some b
                     /\ isCodeBlock b)
  /\ StronglySorted Z.lt (map dt_block drawn)
  /\ (forall pos number,
        codeBlockSwitch ctx pos (userState end_) number = Some 0).
Proof.
  intros Hty Hdoc Hstart Hrun Hend Hfirst Hf Hok Hlen drawn first k.
  unfold isCodeBlockStart in Hstart.
  destruct (paintLineNumberArea_codeBlock ctx e _ Hty Hfirst) as [Hdrawn Hfailed].
  assert (Hk : 1 + k <= INT_MAX).
  { subst k. rewrite Hdoc in Hlen. rewrite length_app in Hlen. simpl in Hlen.
    rewrite length_app in Hlen. lia. }
  assert (Hmain :
    (forall d, d ∈ drawn -> first < dt_block d <= first + k ->
       dt_text d = QString_number (dt_block d - first))
    /\ (forall v, v ∈ visitedBlocks ctx ->
          first < Z.of_nat (v_pos v) <= first + k ->
          inPaintedSpan ctx v = true ->
          drawText ctx (v_pos v) (v_top v) (Z.of_nat (v_pos v) - first)
            (painterBold ctx) ∈ drawn)).
  { subst drawn. rewrite Hdrawn, (visitedBlocks_first ctx _ Hfirst).
    rewrite Hfailed in Hok. clear Hdrawn Hfailed.
    assert (Hrest : drop f (document ctx)
                    = drop f pre ++ start :: run ++ end_ :: post).
    { rewrite Hdoc. apply drop_app_le, Hf. }
    rewrite Hrest in *.
    destruct Hok as [-> | Hok].
    - rewrite drop_all. cbn [app].
      destruct (codeBlock_region ctx start run (end_ :: post) (length pre) 0
                  (firstTop ctx (length pre)) (firstBottom ctx (length pre))
                  Hstart Hrun Hk (or_introl eq_refl)) as [H1 H2].
      split.
      + intros d Hd [Hlo Hhi]. apply H1; [exact Hd | exact Hhi].
      + intros v Hv Hrange Hp. apply H2; [exact Hv | lia | exact Hp].
    - destruct (codeBlock_prefix ctx (drop f pre) (start :: run ++ end_ :: post)
                  f 0 (firstTop ctx f) (firstBottom ctx f))
        as [(number' & top' & bottom' & dm & vm & Hp & Hv & Hdm & Hvm)
           | [Hd Hstop]].
      + replace (f + length (drop f pre))%nat with (length pre) in *
          by (rewrite length_drop; lia).
        rewrite Hp in Hok. cbn [snd] in Hok. rewrite Hp, Hv. cbn [fst].
        destruct (codeBlock_region ctx start run (end_ :: post) (length pre)
                    number' top' bottom' Hstart Hrun Hk (or_intror Hok))
          as [H1 H2].
        split.
        * intros d Hd [Hlo Hhi]. apply elem_of_app in Hd.
          destruct Hd as [Hd | Hd]; [apply Hdm in Hd; subst first; lia|].
          apply H1; [exact Hd | exact Hhi].
        * intros v Hin Hrange Hpaint. apply elem_of_app. right.
          apply elem_of_app in Hin.
          destruct Hin as [Hin | Hin]; [apply Hvm in Hin; subst first; lia|].
          apply H2; [exact Hin | lia | exact Hpaint].
      + replace (f + length (drop f pre))%nat with (length pre) in *
          by (rewrite length_drop; lia).
        split.
        * intros d Hin [Hlo _]. apply Hd in Hin. subst first. lia.
        * intros v Hin Hrange _.
          destruct Hstop as [Hfail | Hvs]; [congruence|].
          apply Hvs in Hin. subst first. lia. }
  destruct Hmain as [H1 H2].
  split; [exact H1|]. split; [exact H2|]. split; [|split].
  - intros d Hd. destruct (codeBlock_only ctx e d Hty Hd) as (b & Hb & Hcode).
    unfold isCodeBlock in Hcode.
    split; [|split; [|exists b; split; assumption]].
    + intros E. rewrite E in Hb. subst first. rewrite Nat2Z.id, Hdoc in Hb.
      rewrite list_lookup_middle in Hb by reflexivity.
      injection Hb as <-. rewrite Hstart in Hcode. discriminate.
    + intros E. rewrite E in Hb. subst first k.
      replace (Z.to_nat (Z.of_nat (length pre) + Z.of_nat (length run) + 1))
        with (length (pre ++ start :: run))
        in Hb by (rewrite length_app; simpl; lia).
      rewrite Hdoc in Hb.
      replace (pre ++ start :: run ++ end_ :: post)
        with ((pre ++ start :: run) ++ end_ :: post)
        in Hb by (rewrite <- app_assoc; reflexivity).
      rewrite list_lookup_middle in Hb by reflexivity.
      injection Hb as <-. rewrite Hend in Hcode. discriminate.
  - subst drawn. rewrite Hdrawn. apply codeBlock_sorted.
  - intros pos number. rewrite Hend. reflexivity.
Qed.

(** C2, as amended: in [CodeBlock] numbering mode, when painting begins at a
    block in state [CodeBlock] (the first of a run [run] of such blocks), the
    backward scan finds the nearest preceding block in state
    [CodeBlockStart], at position [s], and the blocks of the run are painted
    with the distance from it: [first - s] for the first visible block, then
    [first - s + 1], and so on.  If no block before the first visible one is
    in state [CodeBlockStart], the counter stays 0: the first visible block
    is painted with the number 0 and the following blocks of the run with 1,
    2, ...  The scan always ends, and the call does not abort unless
    assertions are compiled in and a [CodeBlockStart] block follows the
    run. *)
Theorem mid_region_numbers ctx e pre run post :
  m_lineNumberType e = LineNumberType.CodeBlock ->
  document ctx = pre ++ run ++ post ->
  Forall isCodeBlock run ->
  firstVisibleBlock ctx = Some (length pre) ->
  Z.of_nat (length (document ctx)) <= INT_MAX ->
  let drawn := pr_drawn (paintLineNumberArea ctx e).2 in
  let first := Z.of_nat (length pre) in
  let numberedFrom (n0 : Z) :=
    (forall d, d ∈ drawn ->
       dt_block d < first + Z.of_nat (length run) ->
       first <= dt_block d
       /\ dt_text d = QString_number (n0 + (dt_block d - first)))
    /\ (forall v, v ∈ visitedBlocks ctx ->
          (v_pos v < length pre + length run)%nat ->
          inPaintedSpan ctx v = true ->
          drawText ctx (v_pos v) (v_top v) (n0 + (Z.of_nat (v_pos v) - first))
            (painterBold ctx) ∈ drawn) in
  (forall s b, pre !! s = Some b -> isCodeBlockStart b ->
     (forall i b', (s < i)%nat -> pre !! i = Some b' -> ~ isCodeBlockStart b') ->
     numberedFrom (first - Z.of_nat s))
  /\ ((forall i b', pre !! i = Some b' -> ~ isCodeBlockStart b') -> numberedFrom 0)
  /\ (assertionsEnabled ctx = false \/ Forall (fun b => ~ isCodeBlockStart b) post ->
      pr_assertFailed (paintLineNumberArea ctx e).2 = false).
Proof.
  intros Hty Hdoc Hrun Hfirst Hlen drawn first numberedFrom.
  destruct (paintLineNumberArea_codeBlock ctx e _ Hty Hfirst) as [Hdrawn Hfailed].
  assert (Hrest : drop (length pre) (document ctx) = run ++ post).
  { rewrite Hdoc. apply drop_app_length. }
  rewrite Hrest in Hdrawn, Hfailed.
  assert (Hlen' : Z.of_nat (length pre) + Z.of_nat (length run) <= INT_MAX).
  { rewrite Hdoc, !length_app in Hlen. lia. }
  assert (Hnum : forall n0, regionNumber ctx (length pre) 0 = n0 ->
                   0 <= n0 <= first -> numberedFrom n0).
  { intros n0 Hn0 Hrange.
    pose proof (codeBlock_run ctx run post (length pre) 0
                  (firstTop ctx (length pre)) (firstBottom ctx (length pre))
                  Hrun) as Hr.
    rewrite Hn0, <- Hdrawn in Hr. fold drawn in Hr.
    destruct Hr as [H1 H2]; [lia | subst first; lia |].
    split.
    - intros d Hd Hlt. split; [|apply H1; assumption].
      subst drawn. rewrite Hdrawn in Hd. apply codeBlock_drawn in Hd.
      destruct Hd as (p & _ & -> & Hle & _). subst first. lia.
    - intros v Hv Hlt Hp. apply H2; [|exact Hlt|exact Hp].
      rewrite <- Hrest, <- (visitedBlocks_first ctx _ Hfirst). exact Hv. }
  split; [|split].
  - intros s b Hs Hb Hnone.
    pose proof (lookup_lt_Some _ _ _ Hs) as Hlt.
    apply Hnum; [|subst first; lia].
    unfold regionNumber. simpl.
    rewrite (findCodeBlockStart_found ctx (length pre) s b).
    + unfold int_sub. apply int_wrap_id.
      unfold in_int, INT_MIN, INT_MAX in *. subst first. lia.
    + rewrite Hdoc, length_app. lia.
    + rewrite Hdoc. rewrite lookup_app_l by exact Hlt. exact Hs.
    + exact Hb.
    + intros i b' Hi Hl. rewrite Hdoc in Hl.
      rewrite lookup_app_l in Hl by lia. apply (Hnone i b'); [lia | exact Hl].
  - intros Hnone. apply Hnum; [|subst first; lia].
    unfold regionNumber. simpl.
    rewrite findCodeBlockStart_none; [reflexivity|].
    intros i b' Hi Hl. rewrite Hdoc in Hl.
    rewrite lookup_app_l in Hl by lia. apply (Hnone i b'). exact Hl.
  - intros Hsafe. rewrite Hfailed.
    destruct (paintCodeBlockNumbers ctx (length pre) (run ++ post) 0 _ _).2
      eqn:Hf; [|reflexivity].
    apply codeBlock_failed in Hf. destruct Hf as (Ha & b & Hb & Hs).
    destruct Hsafe as [Hoff | Hpost]; [congruence|].
    apply elem_of_app in Hb. destruct Hb as [Hb | Hb].
    + rewrite Forall_forall in Hrun. apply Hrun in Hb.
      unfold isCodeBlock in Hb. rewrite Hb in Hs. discriminate.
    + rewrite Forall_forall in Hpost. exfalso. apply (Hpost b Hb). exact Hs.
Qed.

(** C7, as amended: in [Absolute] numbering mode every text drawn is the
    block number plus 1 of the block it is drawn for; the text of the caret's
    block is drawn in bold, and, provided the painter's font is not bold when
    the call begins, no other text is; and every block the loop visits that
    is visible and inside the event rectangle gets its text drawn. *)
Theorem absolute_numbers ctx e :
  m_lineNumberType e = LineNumberType.Absolute ->
  Z.of_nat (length (document ctx)) <= INT_MAX ->
  let drawn := pr_drawn (paintLineNumberArea ctx e).2 in
  (forall d, d ∈ drawn ->
     dt_text d = QString_number (dt_block d + 1)
     /\ (dt_block d = cursorBlockNumber ctx -> dt_bold d = true)
     /\ (painterBold ctx = false ->
         dt_bold d = true -> dt_block d = cursorBlockNumber ctx))
  /\ (forall v, v ∈ visitedBlocks ctx -> inPaintedSpan ctx v = true ->
        exists d, d ∈ drawn
                  /\ dt_block d = Z.of_nat (v_pos v)
                  /\ dt_y d = int_add (v_top v) (lineLeading ctx)
                  /\ dt_text d = QString_number (Z.of_nat (v_pos v) + 1)).
Proof.
  intros Hty Hlen drawn. subst drawn.
  assert (Hmode : m_lineNumberType e = LineNumberType.Absolute
                  \/ m_lineNumberType e = LineNumberType.Relative) by auto.
  split.
  - intros d Hd.
    destruct (numbers_drawn_visit ctx e d Hmode Hlen Hd) as (v & d' & Hv & Hnv & Hrel).
    apply visitedBlocks_bound in Hv.
    unfold numberedVisit in Hnv. rewrite Hty in Hnv.
    destruct (inPaintedSpan ctx v); [|discriminate].
    rewrite lineNumber_Absolute in Hnv by lia. injection Hnv as <-.
    destruct Hrel as [-> | [Hnb ->]]; simpl in *.
    + split; [reflexivity|]. split; [apply Z.eqb_eq | intros _; apply Z.eqb_eq].
    + split; [reflexivity|]. split.
      * intros E. apply Z.eqb_eq in E. congruence.
      * intros ->. discriminate.
  - intros v Hv Hp.
    pose proof (visitedBlocks_bound _ _ Hv) as Hb.
    destruct (numbers_visit_drawn ctx e v
                (drawText ctx (v_pos v) (v_top v) (Z.of_nat (v_pos v) + 1)
                   (Z.of_nat (v_pos v) =? cursorBlockNumber ctx)) Hmode Hlen Hv)
      as (d & Hd & Hrel).
    { unfold numberedVisit. rewrite Hty, Hp, lineNumber_Absolute by lia.
      reflexivity. }
    exists d. split; [exact Hd|].
    destruct Hrel as [-> | [_ ->]]; simpl; auto.
Qed.

(** C3, as amended: in [Relative] numbering mode the text drawn for the
    caret's block is its block number plus 1, in bold; the text drawn for any
    other block is the absolute difference of its block number and the
    caret's, and, provided the painter's font is not bold when the call
    begins, it is not bold; and every block the loop visits that is visible
    and inside the event rectangle gets its text drawn. *)
Theorem relative_numbers ctx e :
  m_lineNumberType e = LineNumberType.Relative ->
  Z.of_nat (length (document ctx)) <= INT_MAX ->
  0 <= cursorBlockNumber ctx < Z.of_nat (length (document ctx)) ->
  let drawn := pr_drawn (paintLineNumberArea ctx e).2 in
  let expected (block : Z) :=
    if block =? cursorBlockNumber ctx
    then QString_number (block + 1)
    else QString_number (Z.abs (block - cursorBlockNumber ctx)) in
  (forall d, d ∈ drawn ->
     (dt_block d = cursorBlockNumber ctx ->
      dt_text d = QString_number (dt_block d + 1) /\ dt_bold d = true)
     /\ (dt_block d <> cursorBlockNumber ctx ->
         dt_text d = QString_number (Z.abs (dt_block d - cursorBlockNumber ctx))
         /\ (painterBold ctx = false -> dt_bold d = false)))
  /\ (forall v, v ∈ visitedBlocks ctx -> inPaintedSpan ctx v = true ->
        exists d, d ∈ drawn
                  /\ dt_block d = Z.of_nat (v_pos v)
                  /\ dt_y d = int_add (v_top v) (lineLeading ctx)
                  /\ dt_text d = expected (Z.of_nat (v_pos v))).
Proof.
  intros Hty Hlen Hcur drawn expected. subst drawn expected.
  assert (Hmode : m_lineNumberType e = LineNumberType.Absolute
                  \/ m_lineNumberType e = LineNumberType.Relative) by auto.
  split.
  - intros d Hd.
    destruct (numbers_drawn_visit ctx e d Hmode Hlen Hd) as (v & d' & Hv & Hnv & Hrel).
    apply visitedBlocks_bound in Hv.
    unfold numberedVisit in Hnv. rewrite Hty in Hnv.
    destruct (inPaintedSpan ctx v); [|discriminate].
    rewrite lineNumber_Relative in Hnv by lia.
    destruct (Z.eqb_spec (Z.of_nat (v_pos v)) (cursorBlockNumber ctx)) as [E|E];
      injection Hnv as <-.
    + destruct Hrel as [-> | [Hnb ->]]; simpl in *; [|discriminate].
      split; [intros _; split; reflexivity | intros H; contradiction].
    + destruct Hrel as [-> | [Hnb ->]]; simpl in *.
      * split; [intros H; contradiction|].
        intros _. split; [reflexivity | intros _; reflexivity].
      * split; [intros H; contradiction|].
        intros _. split; [reflexivity | intros Hpb; exact Hpb].
  - intros v Hv Hp.
    pose proof (visitedBlocks_bound _ _ Hv) as Hb.
    destruct (lineNumber ctx LineNumberType.Relative (Z.of_nat (v_pos v)))
      as [currentLine number] eqn:Hln.
    destruct (numbers_visit_drawn ctx e v
                (drawText ctx (v_pos v) (v_top v) number currentLine)
                Hmode Hlen Hv)
      as (d & Hd & Hrel).
    { unfold numberedVisit. rewrite Hty, Hp, Hln. reflexivity. }
    exists d. split; [exact Hd|].
    rewrite lineNumber_Relative in Hln by lia.
    assert (Htext : QString_number number
                    = if Z.of_nat (v_pos v) =? cursorBlockNumber ctx
                      then QString_number (Z.of_nat (v_pos v) + 1)
                      else QString_number
                             (Z.abs (Z.of_nat (v_pos v) - cursorBlockNumber ctx))).
    { destruct (Z.of_nat (v_pos v) =? cursorBlockNumber ctx);
        injection Hln as _ <-; reflexivity. }
    destruct Hrel as [-> | [_ ->]]; simpl; auto.
Qed.

(** ** Facts about the widget *)

Lemma updateLineNumberAreaMargin_frame e :
  m_blockImageEnabled (updateLineNumberAreaMargin e) = m_blockImageEnabled e
  /\ m_imageMgr (updateLineNumberAreaMargin e) = m_imageMgr e
  /\ m_lineNumberType (updateLineNumberAreaMargin e) = m_lineNumberType e
  /\ areaVisible (updateLineNumberAreaMargin e) = areaVisible e
  /\ areaWidth (updateLineNumberAreaMargin e) = areaWidth e.
Proof.
  unfold updateLineNumberAreaMargin.
  destruct (negb (LineNumberType.eqb _ _)); destruct (negb (_ =? _)); simpl; auto.
Qed.

Lemma updateLineNumberAreaMargin_left e :
  viewportMarginLeft (updateLineNumberAreaMargin e)
  = if LineNumberType.eqb (m_lineNumberType e) LineNumberType.None
    then 0 else areaWidth e.
Proof.
  unfold updateLineNumberAreaMargin.
  destruct (LineNumberType.eqb _ _); cbn [negb].
  - destruct (Z.eqb_spec 0 (viewportMarginLeft e)); simpl; congruence.
  - destruct (Z.eqb_spec (areaWidth e) (viewportMarginLeft e)); simpl; congruence.
Qed.

(** Which operations touch the image flag and the image cache. *)
Lemma run_images op e :
  (m_blockImageEnabled (run op e), m_imageMgr (run op e))
  = match op with
    | OpClearBlockImages => (m_blockImageEnabled e, ImageMgr.clear (m_imageMgr e))
    | OpAddImage name image =>
        (m_blockImageEnabled e,
         if m_blockImageEnabled e
         then ImageMgr.addImage name image (m_imageMgr e) else m_imageMgr e)
    | OpRemoveImage name =>
        (m_blockImageEnabled e, ImageMgr.removeImage name (m_imageMgr e))
    | OpSetBlockImageEnabled p_enabled =>
        (p_enabled,
         if Bool.eqb (m_blockImageEnabled e) p_enabled || p_enabled
         then m_imageMgr e else ImageMgr.clear (m_imageMgr e))
    | _ => (m_blockImageEnabled e, m_imageMgr e)
    end.
Proof.
  destruct op; simpl; try reflexivity.
  - unfold on_cursorBlockWidthUpdated. destruct (_ && _); reflexivity.
  - unfold resizeEvent. destruct (negb _); reflexivity.
  - unfold paintLineNumberArea.
    destruct (LineNumberType.eqb (m_lineNumberType e) LineNumberType.None).
    + simpl. destruct (updateLineNumberAreaMargin_frame e) as (-> & -> & _).
      reflexivity.
    + destruct (firstVisibleBlock ctx); [|reflexivity].
      destruct (LineNumberType.eqb _ _); [|reflexivity].
      destruct (paintCodeBlockNumbers _ _ _ _ _ _). reflexivity.
  - destruct (updateLineNumberAreaMargin_frame e) as (-> & -> & _). reflexivity.
  - unfold updateLineNumberArea.
    destruct (updateLineNumberAreaMargin_frame e) as (Hf & Hm & _).
    destruct (negb _); [destruct (negb (areaVisible e))|destruct (areaVisible e)];
      simpl; rewrite ?Hf, ?Hm; reflexivity.
  - unfold on_cursorPositionChanged, updateLineNumberArea.
    destruct (m_highlightCursorLineBlock e); simpl.
    + pose proof (updateLineNumberAreaMargin_frame
                    (call (Layout_setCursorLineBlockNumber cursorBlock) e))
        as (Hf & Hm & _).
      destruct (negb _); [destruct (negb (areaVisible e))|destruct (areaVisible e)];
        simpl; rewrite ?Hf, ?Hm; reflexivity.
    + destruct (updateLineNumberAreaMargin_frame e) as (Hf & Hm & _).
      destruct (negb _); [destruct (negb (areaVisible e))|destruct (areaVisible e)];
        simpl; rewrite ?Hf, ?Hm; reflexivity.
  - unfold addImage.
    destruct (m_blockImageEnabled e) eqn:E; simpl; rewrite ?E; reflexivity.
  - unfold setBlockImageEnabled.
    destruct (m_blockImageEnabled e) eqn:E, p_enabled; simpl; rewrite ?E;
      reflexivity.
  - unfold setCursorBlockMode. destruct (negb _); reflexivity.
  - unfold setHighlightCursorLineBlockEnabled.
    destruct (negb _); [|reflexivity]. simpl. destruct p_enabled; reflexivity.
Qed.

Lemma run_imagesGuarded op e : imagesGuarded e -> imagesGuarded (run op e).
Proof.
  unfold imagesGuarded. intros Hinv Hoff.
  pose proof (run_images op e) as H.
  pose proof (f_equal fst H) as Hf. pose proof (f_equal snd H) as Hm.
  cbn [fst snd] in Hf, Hm. rewrite Hm. rewrite Hf in Hoff. clear H Hf Hm.
  destruct op; cbn [fst snd] in *; auto.
  - rewrite Hoff. auto.
  - simpl. rewrite (Hinv Hoff). apply delete_empty.
  - subst p_enabled. rewrite orb_false_r.
    destruct (m_blockImageEnabled e); simpl; auto.
Qed.

Lemma reachable_imagesGuarded e : reachable e -> imagesGuarded e.
Proof.
  intros (width & ops & ->). unfold runAll.
  induction ops as [|op ops IH] using rev_ind.
  - intros _. reflexivity.
  - rewrite foldl_app. simpl. apply run_imagesGuarded, IH.
Qed.

(** C5: in every state the widget can reach, [setBlockImageEnabled(false)]
    leaves the image cache empty and the flag off; when the flag was on, the
    call tells the layout, clears the cache and requests a full relayout, in
    this order, before it returns (and empties the cache whatever it
    held). *)
Theorem disabling_images_clears_cache e :
  reachable e ->
  let e' := setBlockImageEnabled false e in
  m_images (m_imageMgr e') = ∅
  /\ m_blockImageEnabled e' = false
  /\ (m_blockImageEnabled e = true ->
      calls e' = calls e ++ [Layout_setBlockImageEnabled false;
                             ImageMgr_clear; Layout_relayout])
  /\ (forall e0, m_blockImageEnabled e0 = true ->
        m_images (m_imageMgr (setBlockImageEnabled false e0)) = ∅).
Proof.
  intros Hreach e'. subst e'.
  apply reachable_imagesGuarded in Hreach. unfold imagesGuarded in Hreach.
  unfold setBlockImageEnabled.
  split; [|split; [|split]].
  - destruct (m_blockImageEnabled e); simpl; auto.
  - destruct (m_blockImageEnabled e) eqn:E; simpl; auto.
  - intros ->. simpl. rewrite <- !app_assoc. reflexivity.
  - intros e0 ->. reflexivity.
Qed.

(** C4, as amended: while block images are enabled, after
    [addImage(name, image)] the name is contained and [imageSize(name)] is
    the size of [image], for every name, image and prior cache; after
    [removeImage(name)] the name is not contained. *)
Theorem image_added_then_removed e name image :
  m_blockImageEnabled e = true ->
  let e1 := addImage name image e in
  containsImage name e1 = true
  /\ imageSize name e1 = pixmap_size image
  /\ containsImage name (removeImage name e1) = false.
Proof.
  intros Hon e1. subst e1. unfold addImage. rewrite Hon.
  unfold containsImage, imageSize, ImageMgr.contains, ImageMgr.findImage. simpl.
  rewrite lookup_insert_eq, lookup_delete_eq.
  split; [|split]; [|reflexivity|].
  - apply bool_decide_eq_true. eauto.
  - apply bool_decide_eq_false. intros [x Hx]. discriminate.
Qed.

Lemma removeImage_not_contained e name :
  containsImage name (removeImage name e) = false.
Proof.
  unfold containsImage, ImageMgr.contains. simpl. rewrite lookup_delete_eq.
  apply bool_decide_eq_false. intros [x Hx]. discriminate.
Qed.

(** C9: while the block-image flag is off, [addImage] leaves the widget, and
    so the image cache, exactly as it was, for every name and image; the only
    operation that turns the flag on is [setBlockImageEnabled(true)]; and the
    flag is off in a newly constructed widget. *)
Theorem addImage_needs_enabled e name image :
  m_blockImageEnabled e = false ->
  addImage name image e = e
  /\ (forall op, m_blockImageEnabled (run op e) = true ->
                 op = OpSetBlockImageEnabled true)
  /\ (forall width, m_blockImageEnabled (init width) = false).
Proof.
  intros Hoff. split; [|split].
  - unfold addImage. rewrite Hoff. reflexivity.
  - intros op Hon. pose proof (f_equal fst (run_images op e)) as Hf.
    cbn [fst] in Hf. rewrite Hf in Hon. clear Hf.
    destruct op; cbn [fst] in Hon; congruence.
  - reflexivity.
Qed.

(** C10: for a name that is not in the image cache, [imageSize] returns the
    default-constructed [QSize] (and [containsImage] is false).  [imageSize]
    is a [const] member function: it is a function of the widget state and
    produces no new state. *)
Theorem imageSize_absent e name :
  m_images (m_imageMgr e) !! name = None ->
  containsImage name e = false
  /\ imageSize name e = QSize_default.
Proof.
  intros Habs. unfold containsImage, imageSize, ImageMgr.contains, ImageMgr.findImage.
  rewrite Habs. split; [|reflexivity].
  apply bool_decide_eq_false. intros [x Hx]. discriminate.
Qed.

(** C6: the slot for [cursorBlockWidthUpdated] applies the width [w] (calls
    [setCursorWidth(w)]) if and only if [w] differs from the current caret
    width and is greater than [VIRTUAL_CURSOR_BLOCK_WIDTH]; otherwise it does
    nothing, in particular for every [w] at or below that floor. *)
Theorem caret_width_updated e w :
  let e' := on_cursorBlockWidthUpdated w e in
  let applies := w <> cursorWidth e /\ w > VIRTUAL_CURSOR_BLOCK_WIDTH in
  (applies -> e' = setCursorWidth w e
              /\ cursorWidth e' = w
              /\ calls e' = calls e ++ [Edit_setCursorWidth w])
  /\ (~ applies -> e' = e)
  /\ (calls e' <> calls e <-> applies)
  /\ (w <= VIRTUAL_CURSOR_BLOCK_WIDTH -> e' = e).
Proof.
  intros e' applies. subst e' applies. unfold on_cursorBlockWidthUpdated.
  destruct (Z.eqb_spec w (cursorWidth e)) as [E|E];
    destruct (Z.gtb_spec w VIRTUAL_CURSOR_BLOCK_WIDTH) as [G|G]; simpl;
    repeat split; try tauto; try lia; intros; try tauto; try lia.
  - intros Hc. apply (f_equal length) in Hc. rewrite length_app in Hc.
    simpl in Hc. lia.
Qed.

(** C8: with the mode [None], [updateLineNumberAreaMargin] leaves the left
    viewport margin at 0, [updateLineNumberArea] leaves the gutter hidden
    (with margin 0 whenever it had to hide it), and a paint call hides the
    gutter, sets the margin to 0 and draws nothing; with any other mode,
    [updateLineNumberAreaMargin] leaves the left margin equal to the width
    the gutter computes, and [updateLineNumberArea] does so whenever it shows
    the gutter and keeps the margin at that width when it already was. *)
Theorem gutter_margin e :
  (m_lineNumberType e = LineNumberType.None ->
     viewportMarginLeft (updateLineNumberAreaMargin e) = 0
     /\ areaVisible (updateLineNumberArea e) = false
     /\ (areaVisible e = true ->
         viewportMarginLeft (updateLineNumberArea e) = 0)
     /\ (forall ctx,
           areaVisible (paintLineNumberArea ctx e).1 = false
           /\ viewportMarginLeft (paintLineNumberArea ctx e).1 = 0
           /\ pr_drawn (paintLineNumberArea ctx e).2 = []))
  /\ (m_lineNumberType e <> LineNumberType.None ->
        viewportMarginLeft (updateLineNumberAreaMargin e) = areaWidth e
        /\ (areaVisible e = false \/ viewportMarginLeft e = areaWidth e ->
            viewportMarginLeft (updateLineNumberArea e) = areaWidth e)).
Proof.
  pose proof (updateLineNumberAreaMargin_left e) as Hleft.
  split.
  - intros Hnone. rewrite Hnone in Hleft. simpl in Hleft.
    unfold updateLineNumberArea, paintLineNumberArea. rewrite Hnone. simpl.
    repeat split; auto.
    + destruct (areaVisible e) eqn:E; simpl; auto.
    + intros ->. simpl. exact Hleft.
  - intros Hsome.
    assert (Hb : LineNumberType.eqb (m_lineNumberType e) LineNumberType.None = false).
    { destruct (m_lineNumberType e); try reflexivity. contradiction. }
    rewrite Hb in Hleft. split; [exact Hleft|].
    unfold updateLineNumberArea. rewrite Hb. simpl.
    intros [Hhid | Hok].
    + rewrite Hhid. simpl. exact Hleft.
    + destruct (areaVisible e); simpl; auto.
Qed.

(** ** The theorems at sample inputs *)

Lemma code_region_numbers_witness :
  let ctx := Sample.context Sample.fenced 0 0 true in
  let e := Sample.widget LineNumberType.CodeBlock false in
  map dt_text (pr_drawn (paintLineNumberArea ctx e).2)
  = ["1"; "2"; "3"]%string
  /\ forall d, d ∈ pr_drawn (paintLineNumberArea ctx e).2 ->
       1 < dt_block d <= 1 + 3 ->
       dt_text d = QString_number (dt_block d - 1).
Proof.
  split; [reflexivity|].
  refine (proj1 (code_region_numbers
                   (Sample.context Sample.fenced 0 0 true)
                   (Sample.widget LineNumberType.CodeBlock false)
                   [Sample.block BlockState.Normal]
                   (Sample.block BlockState.CodeBlockStart)
                   [Sample.block BlockState.CodeBlock;
                    Sample.block BlockState.CodeBlock;
                    Sample.block BlockState.CodeBlock]
                   (Sample.block BlockState.CodeBlockEnd)
                   [Sample.block BlockState.Normal]
                   0%nat _ _ _ _ _ _ _ _ _)).
  - reflexivity.
  - reflexivity.
  - reflexivity.
  - repeat constructor.
  - reflexivity.
  - reflexivity.
  - simpl. lia.
  - right. reflexivity.
  - vm_compute. discriminate.
Defined.

Lemma mid_region_numbers_witness :
  let ctx := Sample.context Sample.fenced 3 0 true in
  let e := Sample.widget LineNumberType.CodeBlock false in
  map dt_text (pr_drawn (paintLineNumberArea ctx e).2) = ["2"; "3"]%string
  /\ forall d, d ∈ pr_drawn (paintLineNumberArea ctx e).2 ->
       dt_block d < 3 + 2 ->
       3 <= dt_block d
       /\ dt_text d = QString_number (3 - 1 + (dt_block d - 3)).
Proof.
  split; [reflexivity|].
  refine (proj1 (proj1 (mid_region_numbers
                   (Sample.context Sample.fenced 3 0 true)
                   (Sample.widget LineNumberType.CodeBlock false)
                   [Sample.block BlockState.Normal;
                    Sample.block BlockState.CodeBlockStart;
                    Sample.block BlockState.CodeBlock]
                   [Sample.block BlockState.CodeBlock;
                    Sample.block BlockState.CodeBlock]
                   [Sample.block BlockState.CodeBlockEnd;
                    Sample.block BlockState.Normal]
                   _ _ _ _ _)
                 1%nat (Sample.block BlockState.CodeBlockStart) _ _ _)).
  - reflexivity.
  - reflexivity.
  - repeat constructor.
  - reflexivity.
  - vm_compute. discriminate.
  - reflexivity.
  - reflexivity.
  - intros i b' Hi Hl.
    destruct i as [|[|[|i]]]; try lia; [|discriminate Hl].
    injection Hl as <-. discriminate.
Defined.

Lemma relative_numbers_witness :
  let ctx := Sample.context Sample.fenced 0 3 true in
  let e := Sample.widget LineNumberType.Relative false in
  map (fun d => (dt_text d, dt_bold d)) (pr_drawn (paintLineNumberArea ctx e).2)
  = [("3", false); ("2", false); ("1", false); ("4", true);
     ("1", false); ("2", false); ("3", false)]%string
  /\ forall d, d ∈ pr_drawn (paintLineNumberArea ctx e).2 ->
       (dt_block d = 3 ->
        dt_text d = QString_number (dt_block d + 1) /\ dt_bold d = true)
       /\ (dt_block d <> 3 ->
           dt_text d = QString_number (Z.abs (dt_block d - 3))
           /\ dt_bold d = false).
Proof.
  split; [reflexivity|]. intros d Hd.
  assert (Hlen : Z.of_nat (length Sample.fenced) <= INT_MAX)
    by (vm_compute; discriminate).
  assert (Hcur : 0 <= 3 < Z.of_nat (length Sample.fenced))
    by (vm_compute; split; [discriminate | reflexivity]).
  destruct (proj1 (relative_numbers
                     (Sample.context Sample.fenced 0 3 true)
                     (Sample.widget LineNumberType.Relative false)
                     eq_refl Hlen Hcur) d Hd) as [Hcaret Hother].
  split; [exact Hcaret|].
  intros Hne. destruct (Hother Hne) as [Htext Hbold].
  split; [exact Htext | exact (Hbold eq_refl)].
Defined.

Lemma absolute_numbers_witness :
  let ctx := Sample.context Sample.fenced 0 3 true in
  let e := Sample.widget LineNumberType.Absolute false in
  map (fun d => (dt_text d, dt_bold d)) (pr_drawn (paintLineNumberArea ctx e).2)
  = [("1", false); ("2", false); ("3", false); ("4", true);
     ("5", false); ("6", false); ("7", false)]%string
  /\ forall d, d ∈ pr_drawn (paintLineNumberArea ctx e).2 ->
       dt_text d = QString_number (dt_block d + 1)
       /\ (dt_bold d = true <-> dt_block d = 3).
Proof.
  split; [reflexivity|]. intros d Hd.
  assert (Hlen : Z.of_nat (length Sample.fenced) <= INT_MAX)
    by (vm_compute; discriminate).
  destruct (proj1 (absolute_numbers
                     (Sample.context Sample.fenced 0 3 true)
                     (Sample.widget LineNumberType.Absolute false)
                     eq_refl Hlen) d Hd) as (Htext & Hcaret & Honly).
  split; [exact Htext|]. split; [exact (Honly eq_refl) | exact Hcaret].
Defined.

Lemma disabling_images_clears_cache_witness :
  let e := runAll [OpSetBlockImageEnabled true; OpAddImage "x" Sample.image]
             (init 30) in
  containsImage "x" e = true
  /\ m_images (m_imageMgr (setBlockImageEnabled false e)) = ∅
  /\ containsImage "x" (setBlockImageEnabled false e) = false.
Proof.
  split; [reflexivity|]. split; [|reflexivity].
  refine (proj1 (disabling_images_clears_cache
                   (runAll [OpSetBlockImageEnabled true;
                            OpAddImage "x" Sample.image] (init 30)) _)).
  exists 30, [OpSetBlockImageEnabled true; OpAddImage "x" Sample.image].
  reflexivity.
Defined.

Lemma image_added_then_removed_witness :
  let e := Sample.widget LineNumberType.None true in
  let e1 := addImage "x" Sample.image e in
  containsImage "x" e1 = true
  /\ imageSize "x" e1 = {| size_width := 16; size_height := 9 |}
  /\ containsImage "x" (removeImage "x" e1) = false.
Proof.
  refine (image_added_then_removed (Sample.widget LineNumberType.None true)
            "x" Sample.image _).
  reflexivity.
Defined.

Lemma addImage_needs_enabled_witness :
  addImage "x" Sample.image (init 30) = init 30.
Proof.
  refine (proj1 (addImage_needs_enabled (init 30) "x" Sample.image _)).
  reflexivity.
Defined.

Lemma imageSize_absent_witness :
  imageSize "x" (init 30) = QSize_default.
Proof.
  refine (proj2 (imageSize_absent (init 30) "x" _)).
  reflexivity.
Defined.

Lemma caret_width_updated_witness :
  cursorWidth (on_cursorBlockWidthUpdated 12 (init 30)) = 12
  /\ on_cursorBlockWidthUpdated 8 (init 30) = init 30.
Proof.
  split.
  - refine (proj1 (proj2 (proj1 (caret_width_updated (init 30) 12) _))).
    split; [discriminate | reflexivity].
  - refine (proj2 (proj2 (proj2 (caret_width_updated (init 30) 8))) _).
    discriminate.
Defined.

Lemma gutter_margin_witness :
  viewportMarginLeft
    (updateLineNumberAreaMargin (Sample.widget LineNumberType.Absolute false))
  = 30
  /\ viewportMarginLeft
       (updateLineNumberAreaMargin
          (setViewportMargins 30 (Sample.widget LineNumberType.None false)))
     = 0.
Proof.
  split.
  - refine (proj1 (proj2 (gutter_margin
                            (Sample.widget LineNumberType.Absolute false)) _)).
    discriminate.
  - refine (proj1 (proj1 (gutter_margin
                            (setViewportMargins 30
                               (Sample.widget LineNumberType.None false))) _)).
    reflexivity.
Defined.

(** ** Where the code departs from the specification *)

(** Painting begins at a block in state [CodeBlock] with no [CodeBlockStart]
    before it: the block is painted, with the number 0. *)
Lemma unfenced_block_painted_zero :
  let ctx := Sample.context Sample.unfenced 0 0 true in
  let e := Sample.widget LineNumberType.CodeBlock false in
  firstVisibleBlock ctx = Some 0%nat
  /\ document ctx !! 0%nat = Some (Sample.block BlockState.CodeBlock)
  /\ findCodeBlockStart ctx 0 = None
  /\ map (fun d => (dt_block d, dt_text d))
       (pr_drawn (paintLineNumberArea ctx e).2)
     = [(0, "0"); (1, "1")]%string
  /\ ~ (forall d, d ∈ pr_drawn (paintLineNumberArea ctx e).2 ->
                  dt_block d <> 0).
Proof.
  repeat split.
  intros H. apply (H (drawText (Sample.context Sample.unfenced 0 0 true)
                        0 0 0 false)); [|reflexivity].
  apply list_elem_of_here.
Qed.

(** In a build with assertions, a [CodeBlockStart] block that follows such a
    run is reached with a non-zero counter and the call aborts there. *)
Example assertion_fails_after_unfenced_run :
  let doc := [Sample.block BlockState.CodeBlock;
              Sample.block BlockState.CodeBlockStart] in
  let e := Sample.widget LineNumberType.CodeBlock false in
  pr_assertFailed (paintLineNumberArea (Sample.context doc 0 0 true) e).2 = true
  /\ pr_assertFailed (paintLineNumberArea (Sample.context doc 0 0 false) e).2
     = false.
Proof. split; reflexivity. Qed.

(** A block in state [CodeBlock] after a closed region belongs to no region
    and is painted all the same, with its distance from the nearest
    [CodeBlockStart] block before it. *)
Lemma code_block_outside_region_painted :
  let ctx := Sample.context Sample.trailing 0 0 true in
  let e := Sample.widget LineNumberType.CodeBlock false in
  firstVisibleBlock ctx = Some 0%nat
  /\ pr_assertFailed (paintLineNumberArea ctx e).2 = false
  /\ map (fun d => (dt_block d, dt_text d))
       (pr_drawn (paintLineNumberArea ctx e).2)
     = [(1, "1"); (3, "3")]%string
  /\ ~ (forall d, d ∈ pr_drawn (paintLineNumberArea ctx e).2 ->
                  0 <= dt_block d <= 2).
Proof.
  repeat split.
  intros H.
  specialize (H (drawText (Sample.context Sample.trailing 0 0 true)
                   3 30 3 false) ltac:(vm_compute; apply list_elem_of_further,
                                        list_elem_of_here)).
  simpl in H. lia.
Qed.

(** With a painter whose font is bold when the call begins, the blocks
    painted before the caret's block are drawn in bold in the [Absolute]
    mode: the code switches bold off only after the caret's line. *)
Lemma absolute_bold_before_caret :
  let ctx := Sample.boldContext Sample.fenced 0 3 true in
  let e := Sample.widget LineNumberType.Absolute false in
  map (fun d => (dt_block d, dt_text d, dt_bold d))
    (pr_drawn (paintLineNumberArea ctx e).2)
  = [(0, "1", true); (1, "2", true); (2, "3", true); (3, "4", true);
     (4, "5", false); (5, "6", false); (6, "7", false)]%string
  /\ ~ (forall d, d ∈ pr_drawn (paintLineNumberArea ctx e).2 ->
                  (dt_bold d = true <-> dt_block d = cursorBlockNumber ctx)).
Proof.
  split; [reflexivity|].
  intros H.
  specialize (H (drawText (Sample.boldContext Sample.fenced 0 3 true)
                   0 0 1 true) ltac:(vm_compute; apply list_elem_of_here)).
  destruct H as [H _]. specialize (H eq_refl). discriminate H.
Qed.

(** The same in the [Relative] mode. *)
Lemma relative_bold_before_caret :
  let ctx := Sample.boldContext Sample.fenced 0 3 true in
  let e := Sample.widget LineNumberType.Relative false in
  map (fun d => (dt_block d, dt_text d, dt_bold d))
    (pr_drawn (paintLineNumberArea ctx e).2)
  = [(0, "3", true); (1, "2", true); (2, "1", true); (3, "4", true);
     (4, "1", false); (5, "2", false); (6, "3", false)]%string
  /\ ~ (forall d, d ∈ pr_drawn (paintLineNumberArea ctx e).2 ->
                  dt_block d <> cursorBlockNumber ctx -> dt_bold d = false).
Proof.
  split; [reflexivity|].
  intros H.
  specialize (H (drawText (Sample.boldContext Sample.fenced 0 3 true)
                   0 0 3 true) ltac:(vm_compute; apply list_elem_of_here)
                ltac:(discriminate)).
  discriminate H.
Qed.

(** A newly constructed widget has block images disabled: [addImage] is
    ignored, the name is not contained afterwards and its size is the
    default one. *)
Lemma addImage_ignored_when_disabled :
  containsImage "x" (addImage "x" Sample.image (init 30)) = false
  /\ imageSize "x" (addImage "x" Sample.image (init 30)) = QSize_default
  /\ QSize_default <> pixmap_size Sample.image.
Proof.
  repeat split. discriminate.
Qed.

(** * Further properties *)

(** ** The states a widget can reach *)

Lemma reachable_ind (P : VTextEdit -> Prop) :
  (forall width, P (init width)) ->
  (forall op e, reachable e -> P e -> P (run op e)) ->
  forall e, reachable e -> P e.
Proof.
  intros Hinit Hrun e (width & ops & ->). unfold runAll.
  induction ops as [|op ops IH] using rev_ind; [apply Hinit|].
  rewrite foldl_app. simpl. apply Hrun; [|exact IH].
  exists width, ops. reflexivity.
Qed.

Lemma paintLineNumberArea_state ctx e :
  (paintLineNumberArea ctx e).1
  = if LineNumberType.eqb (m_lineNumberType e) LineNumberType.None
    then set_areaVisible false (updateLineNumberAreaMargin e)
    else e.
Proof.
  unfold paintLineNumberArea.
  destruct (LineNumberType.eqb (m_lineNumberType e) LineNumberType.None);
    [reflexivity|].
  destruct (firstVisibleBlock ctx); [|reflexivity].
  destruct (LineNumberType.eqb _ _); [|reflexivity].
  destruct (paintCodeBlockNumbers _ _ _ _ _ _). reflexivity.
Qed.

(** Unfolds an operation into the primitive updates it is made of and
    splits on every condition it tests. *)
Ltac run_cases :=
  cbn [run];
  rewrite ?paintLineNumberArea_state;
  unfold on_cursorBlockWidthUpdated, setLineLeading, resizeEvent,
    on_cursorPositionChanged, updateLineNumberArea, updateLineNumberAreaMargin,
    relayoutBlocks, addImage, removeImage, setBlockImageEnabled,
    clearBlockImages, setImageWidthConstrainted, setImageLineColor,
    setCursorBlockMode, setHighlightCursorLineBlockEnabled,
    setCursorLineBlockBg, relayout;
  repeat match goal with
         | |- context [if ?c then _ else _] => destruct c eqn:?
         end;
  cbn [call set_imageMgr set_blockImageEnabled set_cursorBlockMode
       set_highlightCursorLineBlock setCursorWidth setViewportMargins
       set_areaVisible m_lineNumberType m_blockImageEnabled m_cursorBlockMode
       m_highlightCursorLineBlock m_imageMgr cursorWidth viewportMarginLeft
       areaVisible areaWidth editorVisible calls] in *.

(** ** The caret *)

Lemma run_caret op e :
  (m_cursorBlockMode e = CursorBlock.None ->
   cursorWidth e = 1 \/ VIRTUAL_CURSOR_BLOCK_WIDTH < cursorWidth e) ->
  (m_cursorBlockMode e <> CursorBlock.None ->
   VIRTUAL_CURSOR_BLOCK_WIDTH <= cursorWidth e) ->
  (m_cursorBlockMode (run op e) = CursorBlock.None ->
   cursorWidth (run op e) = 1
   \/ VIRTUAL_CURSOR_BLOCK_WIDTH < cursorWidth (run op e))
  /\ (m_cursorBlockMode (run op e) <> CursorBlock.None ->
      VIRTUAL_CURSOR_BLOCK_WIDTH <= cursorWidth (run op e)).
Proof.
  intros Hnone Hblock.
  destruct op; run_cases; try (split; assumption).
  all: unfold VIRTUAL_CURSOR_BLOCK_WIDTH in *.
  all: split; intros Hm; try lia; try congruence.
  all: try (destruct p_mode; simpl in *; try congruence; lia).
  all: try (right; lia).
Qed.

(** X1: in every state the widget can reach the caret is one pixel wide or at
    least as wide as the virtual block width; with a cursor-block mode other
    than [None] it is never narrower than the virtual block width, and with
    the mode [None] it is one pixel wide or wider than that width. *)
Theorem caret_width_invariant e :
  reachable e ->
  (m_cursorBlockMode e = CursorBlock.None ->
   cursorWidth e = 1 \/ VIRTUAL_CURSOR_BLOCK_WIDTH < cursorWidth e)
  /\ (m_cursorBlockMode e <> CursorBlock.None ->
      VIRTUAL_CURSOR_BLOCK_WIDTH <= cursorWidth e).
Proof.
  intros Hreach. induction Hreach as [width | op e _ [Hnone Hblock]]
    using reachable_ind.
  - split; [left; reflexivity | intros H; contradiction].
  - apply run_caret; assumption.
Qed.

(** X2: [setCursorBlockMode] with the mode the widget already has does
    nothing; with another mode it stores the mode, tells the layout the mode
    and to forget the last cursor block width, in this order, and sets the
    caret width to the virtual block width for a mode other than [None] and
    to one pixel for [None], whatever width the caret had.  Calling it twice
    with the same mode is the same as calling it once. *)
Theorem setCursorBlockMode_effect e p_mode :
  let e' := setCursorBlockMode p_mode e in
  m_cursorBlockMode e' = p_mode
  /\ (p_mode = m_cursorBlockMode e -> e' = e)
  /\ (p_mode <> m_cursorBlockMode e ->
      cursorWidth e'
      = (if CursorBlock.eqb p_mode CursorBlock.None
         then 1 else VIRTUAL_CURSOR_BLOCK_WIDTH)
      /\ calls e'
         = calls e ++ [Layout_setCursorBlockMode p_mode;
                       Layout_clearLastCursorBlockWidth;
                       Edit_setCursorWidth (cursorWidth e')])
  /\ setCursorBlockMode p_mode e' = e'.
Proof.
  intros e'. subst e'. unfold setCursorBlockMode.
  destruct p_mode, (m_cursorBlockMode e) eqn:E; simpl; rewrite ?E;
    repeat split; try congruence; try (intros; rewrite <- ?app_assoc; reflexivity).
  all: destruct e; simpl in *; subst; reflexivity.
Qed.

(** X3: a second notification of the same caret width changes nothing: the
    slot for [cursorBlockWidthUpdated] calls [setCursorWidth] at most once
    for a width, and after it the caret width is the notified width or the
    width it was. *)
Theorem caret_notification_idempotent e w :
  let e' := on_cursorBlockWidthUpdated w e in
  on_cursorBlockWidthUpdated w e' = e'
  /\ (cursorWidth e' = w \/ cursorWidth e' = cursorWidth e)
  /\ m_cursorBlockMode e' = m_cursorBlockMode e.
Proof.
  intros e'. subst e'. unfold on_cursorBlockWidthUpdated.
  destruct (negb (w =? cursorWidth e) && (w >? VIRTUAL_CURSOR_BLOCK_WIDTH))
    eqn:Hc; simpl.
  - rewrite Z.eqb_refl. simpl. auto.
  - rewrite Hc. auto.
Qed.

(** ** Block images *)

(** X4: [setBlockImageEnabled] leaves the flag at the value given; with the
    value the flag already has it does nothing, so calling it twice with the
    same value is the same as calling it once; enabling tells the layout and
    neither touches the image cache nor requests a relayout. *)
Theorem setBlockImageEnabled_effect e p_enabled :
  let e' := setBlockImageEnabled p_enabled e in
  m_blockImageEnabled e' = p_enabled
  /\ (m_blockImageEnabled e = p_enabled -> e' = e)
  /\ setBlockImageEnabled p_enabled e' = e'
  /\ (p_enabled = true -> m_blockImageEnabled e = false ->
      m_imageMgr e' = m_imageMgr e
      /\ calls e' = calls e ++ [Layout_setBlockImageEnabled true]).
Proof.
  intros e'. subst e'. unfold setBlockImageEnabled.
  destruct (m_blockImageEnabled e) eqn:E, p_enabled; simpl; rewrite ?E; simpl;
    repeat split; try congruence; try reflexivity.
Qed.

(** ** What the log of calls shows *)

Lemma layoutBlockImageEnabled_snoc cs c :
  layoutBlockImageEnabled (cs ++ [c])
  = match c with
    | Layout_setBlockImageEnabled b => Some b
    | _ => layoutBlockImageEnabled cs
    end.
Proof. unfold layoutBlockImageEnabled. rewrite foldl_app. reflexivity. Qed.

Lemma layoutCursorBlockMode_snoc cs c :
  layoutCursorBlockMode (cs ++ [c])
  = match c with
    | Layout_setCursorBlockMode m => Some m
    | _ => layoutCursorBlockMode cs
    end.
Proof. unfold layoutCursorBlockMode. rewrite foldl_app. reflexivity. Qed.

Lemma layoutHighlight_snoc cs c :
  layoutHighlight (cs ++ [c])
  = match c with
    | Layout_setHighlightCursorLineBlockEnabled b => b
    | _ => layoutHighlight cs
    end.
Proof. unfold layoutHighlight. rewrite foldl_app. reflexivity. Qed.

Lemma cursorLineWhenHighlighted_snoc cs c :
  cursorLineWhenHighlighted cs ->
  (forall n, c = Layout_setCursorLineBlockNumber n -> layoutHighlight cs = true) ->
  cursorLineWhenHighlighted (cs ++ [c]).
Proof.
  intros Hcs Hc i n Hi.
  destruct (Nat.lt_ge_cases i (length cs)) as [Hlt | Hge].
  - rewrite lookup_app_l in Hi by exact Hlt.
    rewrite take_app_le by lia. apply (Hcs i n Hi).
  - rewrite lookup_app_r in Hi by exact Hge.
    destruct (i - length cs)%nat as [|k] eqn:Hk; [|discriminate Hi].
    injection Hi as ->.
    replace i with (length cs) by lia.
    rewrite take_app_length. apply (Hc n eq_refl).
Qed.

Lemma clearsRelayout_snoc cs c :
  clearsRelayout cs /\ last cs <> Some ImageMgr_clear ->
  c <> ImageMgr_clear ->
  clearsRelayout (cs ++ [c]) /\ last (cs ++ [c]) <> Some ImageMgr_clear.
Proof.
  intros [Hcs Hlast] Hc. split.
  - intros i Hi.
    destruct (Nat.lt_ge_cases i (length cs)) as [Hlt | Hge].
    + rewrite lookup_app_l in Hi by exact Hlt.
      pose proof (Hcs i Hi) as Hn.
      rewrite lookup_app_l by (apply lookup_lt_Some in Hn; exact Hn).
      exact Hn.
    + rewrite lookup_app_r in Hi by exact Hge.
      destruct (i - length cs)%nat as [|k]; [|discriminate Hi].
      injection Hi as ->. contradiction.
  - rewrite last_snoc. congruence.
Qed.

Lemma clearsRelayout_clear cs :
  clearsRelayout cs /\ last cs <> Some ImageMgr_clear ->
  clearsRelayout ((cs ++ [ImageMgr_clear]) ++ [Layout_relayout])
  /\ last ((cs ++ [ImageMgr_clear]) ++ [Layout_relayout]) <> Some ImageMgr_clear.
Proof.
  intros [Hcs Hlast]. split.
  - rewrite <- app_assoc. simpl. intros i Hi.
    destruct (Nat.lt_ge_cases i (length cs)) as [Hlt | Hge].
    + rewrite lookup_app_l in Hi by exact Hlt.
      pose proof (Hcs i Hi) as Hn.
      rewrite lookup_app_l by (apply lookup_lt_Some in Hn; exact Hn).
      exact Hn.
    + rewrite lookup_app_r in Hi by exact Hge.
      rewrite lookup_app_r by lia.
      replace (S i - length cs)%nat with (S (i - length cs)) by lia.
      destruct (i - length cs)%nat as [|[|k]]; [reflexivity | discriminate Hi |].
      discriminate Hi.
  - rewrite last_snoc. discriminate.
Qed.

Lemma clearsRelayout_last_lookup cs :
  last cs <> Some ImageMgr_clear ->
  forall i, cs !! i = Some ImageMgr_clear -> (S i < length cs)%nat.
Proof.
  intros Hlast i Hi. pose proof (lookup_lt_Some _ _ _ Hi) as Hlt.
  destruct (Nat.eq_dec (S i) (length cs)) as [E|E]; [|lia].
  exfalso. apply Hlast. rewrite last_lookup.
  replace (Nat.pred (length cs)) with i by lia. exact Hi.
Qed.

(** X5: in every state the widget can reach, the layout has been told the
    value of the block-image flag the widget holds, and the cursor-block mode
    the widget holds (or has been told no mode, and the widget still has the
    mode [None] it is constructed with). *)
Theorem layout_told_widget_state e :
  reachable e ->
  layoutBlockImageEnabled (calls e) = Some (m_blockImageEnabled e)
  /\ match layoutCursorBlockMode (calls e) with
     | Some m => m = m_cursorBlockMode e
     | None => m_cursorBlockMode e = CursorBlock.None
     end.
Proof.
  intros Hreach. induction Hreach as [width | op e _ [Himg Hmode]]
    using reachable_ind.
  - split; reflexivity.
  - destruct op; run_cases;
      rewrite ?layoutBlockImageEnabled_snoc, ?layoutCursorBlockMode_snoc;
      split; solve [assumption | reflexivity | congruence].
Qed.

(** X6: in every state the widget can reach, every [clear()] of the image
    manager the widget has made was directly followed by a full
    [relayout()] of the layout. *)
Theorem clear_followed_by_relayout e :
  reachable e ->
  forall i, calls e !! i = Some ImageMgr_clear ->
            calls e !! S i = Some Layout_relayout.
Proof.
  intros Hreach.
  enough (H : clearsRelayout (calls e) /\ last (calls e) <> Some ImageMgr_clear)
    by exact (proj1 H).
  induction Hreach as [width | op e _ IH] using reachable_ind.
  - split; [|discriminate].
    intros [|[|[|i]]] Hi; discriminate Hi.
  - destruct op; run_cases;
      repeat first [ exact IH
                   | apply clearsRelayout_clear
                   | apply clearsRelayout_snoc; [|discriminate] ].
Qed.

(** X7: in every state the widget can reach, the layout's highlight flag is
    the widget's ([m_highlightCursorLineBlock]), and the widget has reported a
    cursor line to the layout ([setCursorLineBlockNumber]) only while the
    layout had last been told that highlighting is on. *)
Theorem cursor_line_reported_when_highlighted e :
  reachable e ->
  layoutHighlight (calls e) = m_highlightCursorLineBlock e
  /\ forall i n, calls e !! i = Some (Layout_setCursorLineBlockNumber n) ->
                 layoutHighlight (take i (calls e)) = true.
Proof.
  intros Hreach.
  change (layoutHighlight (calls e) = m_highlightCursorLineBlock e
          /\ cursorLineWhenHighlighted (calls e)).
  induction Hreach as [width | op e _ [Hflag Hlog]] using reachable_ind.
  - split; [reflexivity|].
    intros [|[|[|i]]] n Hi; discriminate Hi.
  - destruct op; run_cases; rewrite ?layoutHighlight_snoc; split;
      try solve [assumption | reflexivity | congruence];
      repeat first
        [ exact Hlog
        | apply cursorLineWhenHighlighted_snoc;
          [| intros n Hn; try discriminate Hn;
             rewrite ?layoutHighlight_snoc; congruence ] ].
Qed.

(** ** What a paint call draws *)

Section PaintProperties.
Variable ctx : PaintContext.


Lemma paintNumbers_drawn_visit ty rest : forall pos blockNumber top bottom bold d,
  d ∈ paintNumbers ctx ty pos rest blockNumber top bottom bold ->
  exists v, v ∈ visits ctx pos rest top bottom
            /\ inPaintedSpan ctx v = true /\ drawnFor ctx d v.
Proof.
  induction rest as [|block next IH];
    intros pos blockNumber top bottom bold d; simpl; [intros H; in_nil|].
  destruct (top <=? eventBtm ctx); [|intros H; in_nil].
  destruct (isVisible block && (bottom >=? eventTop ctx)) eqn:Hspan.
  - destruct (lineNumber ctx ty blockNumber) as [currentLine number].
    simpl. intros H. apply elem_of_cons in H. destruct H as [-> | H].
    + eexists. split; [apply list_elem_of_here|].
      split; [exact Hspan | repeat split].
    + apply IH in H. destruct H as (v & Hv & Hrest).
      exists v. split; [apply list_elem_of_further, Hv | exact Hrest].
  - simpl. intros H. apply IH in H. destruct H as (v & Hv & Hrest).
    exists v. split; [apply list_elem_of_further, Hv | exact Hrest].
Qed.


Lemma paintNumbers_ge ty rest : forall pos blockNumber top bottom bold d,
  d ∈ paintNumbers ctx ty pos rest blockNumber top bottom bold ->
  Z.of_nat pos <= dt_block d.
Proof.
  intros pos blockNumber top bottom bold d Hd.
  apply paintNumbers_drawn_visit in Hd. destruct Hd as (v & Hv & _ & Hblock & _).
  apply visits_bound in Hv. lia.
Qed.

Lemma paintNumbers_sorted ty rest : forall pos blockNumber top bottom bold,
  StronglySorted Z.lt
    (map dt_block (paintNumbers ctx ty pos rest blockNumber top bottom bold)).
Proof.
  induction rest as [|block next IH]; intros pos blockNumber top bottom bold;
    simpl; [constructor|].
  destruct (top <=? eventBtm ctx); [|constructor].
  destruct (isVisible block && (bottom >=? eventTop ctx)); [|apply IH].
  destruct (lineNumber ctx ty blockNumber) as [currentLine number]. simpl.
  constructor; [apply IH|].
  apply Forall_forall. intros z Hz. apply list_elem_of_In, in_map_iff in Hz.
  destruct Hz as (d & <- & Hd). apply list_elem_of_In in Hd.
  apply paintNumbers_ge in Hd. lia.
Qed.
End PaintProperties.


(** X9: whatever the numbering mode, the texts of a paint call are drawn in
    document order and at most one per block: the block numbers of
    successive texts increase strictly. *)
Theorem drawn_in_document_order ctx e :
  StronglySorted Z.lt (map dt_block (pr_drawn (paintLineNumberArea ctx e).2)).
Proof.
  unfold paintLineNumberArea.
  destruct (LineNumberType.eqb (m_lineNumberType e) LineNumberType.None);
    [constructor|].
  destruct (firstVisibleBlock ctx) as [pos|]; [|constructor].
  destruct (LineNumberType.eqb (m_lineNumberType e) LineNumberType.CodeBlock).
  - destruct (paintCodeBlockNumbers ctx pos _ _ _ _) as [drawn failed] eqn:Hp.
    simpl. change drawn with (drawn, failed).1. rewrite <- Hp.
    apply codeBlock_sorted.
  - simpl. apply paintNumbers_sorted.
Qed.

(** X10: in the [Absolute] and [Relative] modes (the caret being in a block
    of the document) every text drawn is the decimal form of a number from 1
    to [INT_MAX]: the gutter never shows 0 or a negative number, and the
    arithmetic on line numbers stays within [int]. *)
Theorem numbers_are_positive ctx e d :
  m_lineNumberType e = LineNumberType.Absolute
  \/ (m_lineNumberType e = LineNumberType.Relative
      /\ 0 <= cursorBlockNumber ctx < Z.of_nat (length (document ctx))) ->
  Z.of_nat (length (document ctx)) <= INT_MAX ->
  d ∈ pr_drawn (paintLineNumberArea ctx e).2 ->
  (exists n, 1 <= n <= INT_MAX /\ dt_text d = QString_number n)
  /\ dt_text d <> "0"%string.
Proof.
  intros Hty Hlen Hd.
  assert (Hmode : m_lineNumberType e = LineNumberType.Absolute
                  \/ m_lineNumberType e = LineNumberType.Relative)
    by (destruct Hty as [H | [H _]]; auto).
  assert (Hn : exists n, 1 <= n <= INT_MAX /\ dt_text d = QString_number n).
  { destruct (numbers_drawn_visit ctx e d Hmode Hlen Hd)
      as (v & d' & Hv & Hnv & Hrel).
    apply visitedBlocks_bound in Hv.
    assert (Htext : dt_text d = dt_text d')
      by (destruct Hrel as [-> | [_ ->]]; reflexivity).
    rewrite Htext. clear Hrel Htext Hd.
    unfold numberedVisit in Hnv.
    destruct (inPaintedSpan ctx v); [|discriminate].
    destruct Hty as [Hty | [Hty Hcur]]; rewrite Hty in Hnv.
    - rewrite lineNumber_Absolute in Hnv by lia. injection Hnv as <-.
      exists (Z.of_nat (v_pos v) + 1). split; [lia | reflexivity].
    - rewrite lineNumber_Relative in Hnv by lia.
      destruct (Z.eqb_spec (Z.of_nat (v_pos v)) (cursorBlockNumber ctx));
        injection Hnv as <-; eexists; (split; [|reflexivity]); lia. }
  split; [exact Hn|].
  destruct Hn as (n & Hrange & ->). intros H0.
  change "0"%string with (QString_number 0) in H0.
  unfold QString_number in H0. apply (inj pretty) in H0. lia.
Qed.

Section CodeBlockProperties.
Variable ctx : PaintContext.

Lemma findCodeBlockStart_Some n : forall s,
  findCodeBlockStart ctx n = Some s ->
  (s < n)%nat /\ exists b, document ctx !! s = Some b /\ isCodeBlockStart b.
Proof.
  induction n as [|m IH]; intros s; simpl; [discriminate|].
  destruct (document ctx !! m) as [bm|] eqn:Hm; [|discriminate].
  destruct (Z.eqb_spec (userState bm) 1) as [E|E].
  - intros [= <-]. split; [lia|]. exists bm. split; [exact Hm | exact E].
  - intros H. apply IH in H. destruct H as [Hlt Hb]. split; [lia | exact Hb].
Qed.

Lemma findCodeBlockStart_None n :
  findCodeBlockStart ctx n = None ->
  (n <= length (document ctx))%nat ->
  forall i b, (i < n)%nat -> document ctx !! i = Some b -> ~ isCodeBlockStart b.
Proof.
  induction n as [|m IH]; intros Hnone Hlen i b Hi Hb; [lia|].
  simpl in Hnone.
  destruct (document ctx !! m) as [bm|] eqn:Hm.
  - destruct (Z.eqb_spec (userState bm) 1) as [E|E]; [discriminate|].
    destruct (Nat.eq_dec i m) as [->|Hne].
    + rewrite Hb in Hm. injection Hm as ->. exact E.
    + apply (IH Hnone ltac:(lia) i b); [lia | exact Hb].
  - apply lookup_ge_None in Hm. lia.
Qed.

(** The counter never exceeds the number of the block the loop is at. *)
Lemma codeBlockSwitch_bounds pos blockState number number' :
  0 <= number <= Z.of_nat pos ->
  Z.of_nat pos <= INT_MAX ->
  codeBlockSwitch ctx pos blockState number = Some number' ->
  (blockState = stateCode ->
   0 <= number' <= Z.of_nat pos
   /\ (number' = 0 -> findCodeBlockStart ctx pos = None))
  /\ (blockState <> stateCode -> 0 <= number' <= Z.of_nat pos + 1).
Proof.
  intros Hnum Hpos Hsw. unfold codeBlockSwitch in Hsw.
  destruct (Z.eqb_spec blockState stateStart) as [E1|E1].
  { destruct (_ && _); [discriminate|]. injection Hsw as <-.
    split; [intros E; rewrite E in E1; discriminate | intros _; lia]. }
  destruct (Z.eqb_spec blockState stateEnd) as [E3|E3].
  { injection Hsw as <-.
    split; [intros E; rewrite E in E3; discriminate | intros _; lia]. }
  destruct (Z.eqb_spec blockState stateCode) as [E2|E2].
  - split; [intros _ | intros E; contradiction].
    destruct (Z.eqb_spec number 0) as [E0|E0].
    + destruct (findCodeBlockStart ctx pos) as [s|] eqn:Hfind.
      * injection Hsw as <-. apply findCodeBlockStart_Some in Hfind.
        destruct Hfind as [Hlt _].
        unfold int_sub. rewrite int_wrap_id
          by (unfold in_int, INT_MIN, INT_MAX in *; lia).
        split; [lia | intros H; lia].
      * injection Hsw as <-. split; [lia | intros _; reflexivity].
    + injection Hsw as <-. split; [lia | intros H; contradiction].
  - injection Hsw as <-. split; [intros E; contradiction | intros _; lia].
Qed.

Lemma codeBlock_counter rest : forall pos number top bottom d,
  0 <= number <= Z.of_nat pos ->
  Z.of_nat pos + Z.of_nat (length rest) <= INT_MAX ->
  d ∈ (paintCodeBlockNumbers ctx pos rest number top bottom).1 ->
  exists n, 0 <= n <= dt_block d
            /\ dt_text d = QString_number n
            /\ (n = 0 -> findCodeBlockStart ctx (Z.to_nat (dt_block d)) = None).
Proof.
  induction rest as [|block next IH]; intros pos number top bottom d Hnum Hlen;
    simpl; [intros H; in_nil|].
  simpl in Hlen.
  destruct (top <=? eventBtm ctx); [|intros H; in_nil].
  destruct (codeBlockSwitch ctx pos (userState block) number) as [number'|] eqn:Hsw;
    [|intros H; in_nil].
  destruct (codeBlockSwitch_bounds _ _ _ _ Hnum ltac:(lia) Hsw) as [Hcode Hother].
  destruct (paintCodeBlockNumbers ctx (S pos) next _ _ _) as [more failed] eqn:Hrec.
  simpl. intros H. apply elem_of_app in H. destruct H as [H | H].
  - destruct (Z.eqb_spec (userState block) 2) as [E|E]; simpl in H; [|in_nil].
    destruct (isVisible block && (bottom >=? eventTop ctx)); [|in_nil].
    apply list_elem_of_singleton in H. subst d.
    destruct (Hcode E) as [Hrange Hzero].
    exists number'. simpl. rewrite Nat2Z.id. auto.
  - change more with (more, failed).1 in H. rewrite <- Hrec in H.
    apply IH in H; [exact H | | lia].
    destruct (Z.eqb_spec (userState block) 2) as [E|E].
    + destruct (Hcode E) as [Hrange _].
      unfold int_add. rewrite int_wrap_id
        by (unfold in_int, INT_MIN, INT_MAX in *; lia).
      lia.
    + specialize (Hother E). lia.
Qed.
End CodeBlockProperties.

(** X11: in the [CodeBlock] mode, for every document of at most [INT_MAX]
    blocks, whatever its block states, every text drawn is the decimal form
    of a number between 0 and the number of the block it is drawn for (so
    the counter never overflows), and the number 0 is drawn only for a block
    that has no block in state [CodeBlockStart] anywhere before it. *)
Theorem code_block_numbers_bounded ctx e d :
  m_lineNumberType e = LineNumberType.CodeBlock ->
  Z.of_nat (length (document ctx)) <= INT_MAX ->
  d ∈ pr_drawn (paintLineNumberArea ctx e).2 ->
  exists n, 0 <= n <= dt_block d
            /\ dt_text d = QString_number n
            /\ (n = 0 ->
                forall i b, Z.of_nat i < dt_block d ->
                            document ctx !! i = Some b -> ~ isCodeBlockStart b).
Proof.
  intros Hty Hlen Hd.
  destruct (firstVisibleBlock ctx) as [pos|] eqn:Hfirst.
  2:{ unfold paintLineNumberArea in Hd. rewrite Hty, Hfirst in Hd.
      simpl in Hd. in_nil. }
  pose proof (firstVisibleBlock_valid _ _ Hfirst) as Hpos.
  destruct (codeBlock_only ctx e d Hty Hd) as (b & Hb & _).
  apply lookup_lt_Some in Hb.
  destruct (paintLineNumberArea_codeBlock ctx e pos Hty Hfirst) as [Hdrawn _].
  rewrite Hdrawn in Hd. apply codeBlock_counter in Hd.
  - destruct Hd as (n & Hrange & Htext & Hzero).
    exists n. split; [exact Hrange|]. split; [exact Htext|].
    intros Hn i b' Hi Hl.
    apply (findCodeBlockStart_None ctx _ (Hzero Hn) ltac:(lia) i b'); [lia|exact Hl].
  - lia.
  - rewrite length_drop. lia.
Qed.

Section Assertion.
Variable ctx : PaintContext.

(** With closed regions, a non-zero counter is only carried into a block in
    state [CodeBlock] or [CodeBlockEnd], so the assertion at
    [CodeBlockStart] holds. *)
Lemma codeBlock_closed rest : forall pos number top bottom,
  closedRegions rest ->
  (number <> 0 ->
   forall b, rest !! 0%nat = Some b -> isCodeBlock b \/ userState b = stateEnd) ->
  (paintCodeBlockNumbers ctx pos rest number top bottom).2 = false.
Proof.
  induction rest as [|block next IH]; intros pos number top bottom Hclosed Hnum;
    simpl; [reflexivity|].
  destruct (top <=? eventBtm ctx); [|reflexivity].
  assert (Hnext : closedRegions next).
  { intros i b b' Hi Hi'. apply (Hclosed (S i) b b'); assumption. }
  assert (Hfollow : isCodeBlockStart block \/ isCodeBlock block ->
                    forall b, next !! 0%nat = Some b ->
                              isCodeBlock b \/ userState b = stateEnd).
  { intros Hb b Hl. apply (Hclosed 0%nat block b); [reflexivity | exact Hl | exact Hb]. }
  unfold codeBlockSwitch.
  destruct (Z.eqb_spec (userState block) stateStart) as [E1|E1].
  { destruct (Z.eqb_spec number 0) as [E0|E0].
    - rewrite andb_false_r. rewrite E1. simpl.
      specialize (IH (S pos) 1 bottom
                    (int_add bottom (boundingHeight ctx (S pos) next)) Hnext).
      destruct (paintCodeBlockNumbers ctx (S pos) next 1 _ _) as [more failed].
      simpl in *. apply IH. intros _. apply Hfollow. left. exact E1.
    - exfalso. destruct (Hnum E0 block eq_refl) as [H | H];
        unfold isCodeBlock in H; rewrite E1 in H; discriminate. }
  destruct (Z.eqb_spec (userState block) stateEnd) as [E3|E3].
  { rewrite E3. simpl.
    specialize (IH (S pos) 0 bottom
                  (int_add bottom (boundingHeight ctx (S pos) next)) Hnext).
    destruct (paintCodeBlockNumbers ctx (S pos) next 0 _ _) as [more failed].
    simpl in *. apply IH. intros H. contradiction. }
  destruct (Z.eqb_spec (userState block) stateCode) as [E2|E2].
  - set (number' := if number =? 0
                    then match findCodeBlockStart ctx pos with
                         | Some startPos =>
                             Some (int_sub (Z.of_nat pos) (Z.of_nat startPos))
                         | None => Some number
                         end
                    else Some number).
    assert (Hsome : exists n, number' = Some n).
    { subst number'. destruct (number =? 0); [|eauto].
      destruct (findCodeBlockStart ctx pos); eauto. }
    destruct Hsome as [n ->].
    specialize (IH (S pos)
                  (if userState block =? 2 then int_add n 1 else n) bottom
                  (int_add bottom (boundingHeight ctx (S pos) next)) Hnext).
    destruct (paintCodeBlockNumbers ctx (S pos) next _ _ _) as [more failed].
    simpl in *. apply IH. intros _. apply Hfollow. right. exact E2.
  - specialize (IH (S pos)
                  (if userState block =? 2 then int_add number 1 else number)
                  bottom (int_add bottom (boundingHeight ctx (S pos) next)) Hnext).
    destruct (paintCodeBlockNumbers ctx (S pos) next _ _ _) as [more failed].
    simpl in *. apply IH.
    destruct (Z.eqb_spec (userState block) 2) as [E|E]; [contradiction|].
    intros Hn. exfalso. destruct (Hnum Hn block eq_refl) as [H | H];
      [contradiction | contradiction].
Qed.

Lemma closedRegions_drop doc n : closedRegions doc -> closedRegions (drop n doc).
Proof.
  intros Hclosed i b b' Hi Hi'. rewrite lookup_drop in Hi, Hi'.
  apply (Hclosed (n + i)%nat b b'); [exact Hi|].
  replace (S (n + i)) with (n + S i)%nat by lia. exact Hi'.
Qed.
End Assertion.

(** X12: when the code regions of the document are closed (every block in
    state [CodeBlockStart] or [CodeBlock] is the last block or is followed by
    a [CodeBlock] or [CodeBlockEnd] block), no paint call aborts on
    [Q_ASSERT(number == 0)], in any mode, from any first visible block and
    with assertions compiled in. *)
Theorem closed_regions_never_abort ctx e :
  closedRegions (document ctx) ->
  pr_assertFailed (paintLineNumberArea ctx e).2 = false.
Proof.
  intros Hclosed. unfold paintLineNumberArea.
  destruct (LineNumberType.eqb (m_lineNumberType e) LineNumberType.None);
    [reflexivity|].
  destruct (firstVisibleBlock ctx) as [pos|]; [|reflexivity].
  destruct (LineNumberType.eqb (m_lineNumberType e) LineNumberType.CodeBlock);
    [|reflexivity].
  destruct (paintCodeBlockNumbers ctx pos _ _ _ _) as [drawn failed] eqn:Hp.
  simpl. change failed with (drawn, failed).2. rewrite <- Hp.
  apply codeBlock_closed; [apply closedRegions_drop, Hclosed|].
  intros H. contradiction.
Qed.

(** X13: in the [CodeBlock] mode the number of a line of a code region does
    not depend on where painting begins inside the region: for a block in
    state [CodeBlockStart] at position [length pre] followed by the
    [CodeBlock] blocks [run], whether the first visible block is the start
    block or any block of [run], every text drawn for a block of [run] is
    its distance from the start block. *)
Theorem region_numbers_independent_of_scroll ctx e pre start run post f d :
  m_lineNumberType e = LineNumberType.CodeBlock ->
  document ctx = pre ++ start :: run ++ post ->
  isCodeBlockStart start ->
  Forall isCodeBlock run ->
  firstVisibleBlock ctx = Some f ->
  (length pre <= f <= length pre + length run)%nat ->
  Z.of_nat (length (document ctx)) <= INT_MAX ->
  d ∈ pr_drawn (paintLineNumberArea ctx e).2 ->
  Z.of_nat (length pre) < dt_block d
  <= Z.of_nat (length pre) + Z.of_nat (length run) ->
  dt_text d = QString_number (dt_block d - Z.of_nat (length pre)).
Proof.
  intros Hty Hdoc Hstart Hrun Hfirst Hf Hlen Hd Hblock.
  destruct (paintLineNumberArea_codeBlock ctx e f Hty Hfirst) as [Hdrawn _].
  rewrite Hdrawn in Hd. clear Hdrawn.
  assert (Hk : 1 + Z.of_nat (length run) <= INT_MAX).
  { rewrite Hdoc, length_app in Hlen. simpl in Hlen.
    rewrite length_app in Hlen. lia. }
  destruct (Nat.eq_dec f (length pre)) as [-> | Hne].
  - rewrite Hdoc, drop_app_length in Hd.
    destruct (codeBlock_region ctx start run post (length pre) 0
                (firstTop ctx (length pre)) (firstBottom ctx (length pre))
                Hstart Hrun Hk (or_introl eq_refl)) as [H1 _].
    apply (H1 d Hd). lia.
  - set (j := (f - S (length pre))%nat).
    assert (Hj : (j < length run)%nat) by (subst j; lia).
    assert (Hsplit : document ctx
                     = (pre ++ start :: take j run) ++ drop j run ++ post).
    { rewrite Hdoc, <- app_assoc. simpl.
      rewrite app_assoc, take_drop. reflexivity. }
    assert (Hflen : length (pre ++ start :: take j run) = f).
    { rewrite length_app. simpl. rewrite length_take. subst j. lia. }
    rewrite Hsplit in Hd.
    rewrite (drop_app_length' _ _ f) in Hd by (symmetry; exact Hflen).
    assert (Hfind : findCodeBlockStart ctx f = Some (length pre)).
    { apply (findCodeBlockStart_found ctx f (length pre) start).
      - rewrite Hdoc, length_app. simpl. rewrite length_app. lia.
      - rewrite Hdoc. apply list_lookup_middle. reflexivity.
      - exact Hstart.
      - intros i b' Hi Hl. rewrite Hdoc in Hl.
        rewrite lookup_app_r in Hl by lia.
        replace (i - length pre)%nat with (S (i - S (length pre))) in Hl by lia.
        simpl in Hl. rewrite lookup_app_l in Hl by lia.
        rewrite Forall_forall in Hrun.
        assert (Hin : b' ∈ run) by (apply list_elem_of_lookup; eauto).
        apply Hrun in Hin. unfold isCodeBlock in Hin. rewrite Hin. discriminate. }
    assert (Hreg : regionNumber ctx f 0 = Z.of_nat f - Z.of_nat (length pre)).
    { unfold regionNumber. simpl. rewrite Hfind.
      unfold int_sub. apply int_wrap_id.
      rewrite Hdoc, length_app in Hlen. simpl in Hlen.
      unfold in_int, INT_MIN, INT_MAX in *. lia. }
    assert (Hrun2 : Forall isCodeBlock (drop j run)) by (apply Forall_drop, Hrun).
    destruct (codeBlock_run ctx (drop j run) post f 0
                (firstTop ctx f) (firstBottom ctx f) Hrun2) as [H1 _].
    + rewrite Hreg. lia.
    + rewrite Hreg, length_drop.
      rewrite Hdoc, length_app in Hlen. simpl in Hlen.
      rewrite length_app in Hlen. lia.
    + rewrite (H1 d Hd).
      * rewrite Hreg. f_equal. lia.
      * rewrite length_drop. subst j. lia.
Qed.

(** X14: in the [Relative] mode two lines equally far above and below the
    caret's line show the same number. *)
Theorem relative_numbers_symmetric ctx e d1 d2 :
  m_lineNumberType e = LineNumberType.Relative ->
  Z.of_nat (length (document ctx)) <= INT_MAX ->
  0 <= cursorBlockNumber ctx < Z.of_nat (length (document ctx)) ->
  d1 ∈ pr_drawn (paintLineNumberArea ctx e).2 ->
  d2 ∈ pr_drawn (paintLineNumberArea ctx e).2 ->
  dt_block d1 <> cursorBlockNumber ctx ->
  cursorBlockNumber ctx - dt_block d1 = dt_block d2 - cursorBlockNumber ctx ->
  dt_text d1 = dt_text d2.
Proof.
  intros Hty Hlen Hcur Hd1 Hd2 Hne Hdist.
  assert (Hmode : m_lineNumberType e = LineNumberType.Absolute
                  \/ m_lineNumberType e = LineNumberType.Relative) by auto.
  assert (Htext : forall d, d ∈ pr_drawn (paintLineNumberArea ctx e).2 ->
                    dt_block d <> cursorBlockNumber ctx ->
                    dt_text d
                    = QString_number (Z.abs (dt_block d - cursorBlockNumber ctx))).
  { intros d Hd Hd_ne.
    destruct (numbers_drawn_visit ctx e d Hmode Hlen Hd)
      as (v & d' & Hv & Hnv & Hrel).
    apply visitedBlocks_bound in Hv.
    unfold numberedVisit in Hnv. rewrite Hty in Hnv.
    destruct (inPaintedSpan ctx v); [|discriminate].
    rewrite lineNumber_Relative in Hnv by lia.
    destruct (Z.eqb_spec (Z.of_nat (v_pos v)) (cursorBlockNumber ctx)) as [E|E];
      injection Hnv as <-;
      destruct Hrel as [-> | [_ ->]]; simpl in *; try contradiction;
      reflexivity. }
  rewrite (Htext d1 Hd1 Hne), (Htext d2 Hd2) by lia.
  f_equal. lia.
Qed.

(** ** The gutter *)

(** X15: [updateLineNumberAreaMargin] leaves the left viewport margin at the
    width the gutter needs (0 for the mode [None]); it calls
    [setViewportMargins] only when the margin differs from that width, so
    with the margin already right it does nothing, and a second call after
    the first does nothing. *)
Theorem updateLineNumberAreaMargin_settles e :
  let width :=
    if LineNumberType.eqb (m_lineNumberType e) LineNumberType.None
    then 0 else areaWidth e in
  let e' := updateLineNumberAreaMargin e in
  (viewportMarginLeft e = width -> e' = e)
  /\ (viewportMarginLeft e <> width -> e' = setViewportMargins width e)
  /\ updateLineNumberAreaMargin e' = e'.
Proof.
  intros width e'. subst width e'. unfold updateLineNumberAreaMargin.
  destruct (LineNumberType.eqb (m_lineNumberType e) LineNumberType.None) eqn:Hty;
    cbn [negb].
  - destruct (Z.eqb_spec 0 (viewportMarginLeft e)) as [E|E]; cbn [negb];
      repeat split; try congruence.
    + rewrite Hty. cbn [negb]. rewrite <- E. reflexivity.
    + simpl. rewrite Hty. reflexivity.
  - destruct (Z.eqb_spec (areaWidth e) (viewportMarginLeft e)) as [E|E];
      cbn [negb]; repeat split; try congruence.
    + rewrite Hty. cbn [negb]. rewrite E, Z.eqb_refl. reflexivity.
    + simpl. rewrite Hty. simpl. rewrite Z.eqb_refl. reflexivity.
Qed.

Lemma updateLineNumberAreaMargin_editor e :
  editorVisible (updateLineNumberAreaMargin e) = editorVisible e.
Proof.
  unfold updateLineNumberAreaMargin.
  destruct (negb (LineNumberType.eqb _ _)); destruct (negb (_ =? _)); reflexivity.
Qed.

Lemma updateLineNumberAreaMargin_fixed e :
  viewportMarginLeft e
  = (if LineNumberType.eqb (m_lineNumberType e) LineNumberType.None
     then 0 else areaWidth e) ->
  updateLineNumberAreaMargin e = e.
Proof.
  intros H. unfold updateLineNumberAreaMargin.
  destruct (LineNumberType.eqb (m_lineNumberType e) LineNumberType.None);
    cbn [negb]; rewrite H, Z.eqb_refl; reflexivity.
Qed.

(** X16: after [updateLineNumberArea] the gutter is hidden when the mode is
    [None]; when the mode is not [None] it is visible if it was visible or
    the editor is visible (the gutter is shown, which makes it visible only
    in a visible editor).  The mode, the width the gutter reports and the
    editor's visibility are as before.  A second call changes neither the
    margin nor the visibility: it does nothing when the mode is [None], and
    only requests a repaint when the gutter has become visible. *)
Theorem updateLineNumberArea_settles e :
  let e' := updateLineNumberArea e in
  let none := LineNumberType.eqb (m_lineNumberType e) LineNumberType.None in
  areaVisible e' = (if none then false else areaVisible e || editorVisible e)
  /\ m_lineNumberType e' = m_lineNumberType e
  /\ areaWidth e' = areaWidth e
  /\ editorVisible e' = editorVisible e
  /\ viewportMarginLeft (updateLineNumberArea e') = viewportMarginLeft e'
  /\ areaVisible (updateLineNumberArea e') = areaVisible e'
  /\ (none = true -> updateLineNumberArea e' = e')
  /\ (none = false -> areaVisible e' = true ->
      updateLineNumberArea e' = call Area_update e').
Proof.
  intros e' none. subst e' none.
  destruct (updateLineNumberAreaMargin_frame e) as (_ & _ & Hty' & Hvis' & Hw').
  pose proof (updateLineNumberAreaMargin_editor e) as Hed'.
  pose proof (updateLineNumberAreaMargin_left e) as Hleft.
  set (m := updateLineNumberAreaMargin e) in *.
  destruct (LineNumberType.eqb (m_lineNumberType e) LineNumberType.None) eqn:Hty;
    destruct (areaVisible e) eqn:Hvis.
  - (* mode None, gutter visible: margin updated, gutter hidden *)
    assert (He : updateLineNumberArea e = set_areaVisible false m)
      by (unfold updateLineNumberArea; rewrite Hty, Hvis; reflexivity).
    assert (H2 : updateLineNumberArea (set_areaVisible false m)
                 = set_areaVisible false m)
      by (unfold updateLineNumberArea; simpl; rewrite Hty', Hty; reflexivity).
    rewrite He, H2. simpl. repeat split; auto.
    intros H; discriminate H.
  - (* mode None, gutter hidden: nothing happens *)
    assert (He : updateLineNumberArea e = e)
      by (unfold updateLineNumberArea; rewrite Hty, Hvis; reflexivity).
    rewrite !He. repeat split; auto. intros H; discriminate H.
  - (* another mode, gutter visible: repaint only *)
    assert (He : updateLineNumberArea e = call Area_update e)
      by (unfold updateLineNumberArea; rewrite Hty, Hvis; reflexivity).
    assert (H2 : updateLineNumberArea (call Area_update e)
                 = call Area_update (call Area_update e))
      by (unfold updateLineNumberArea; simpl; rewrite Hty, Hvis; reflexivity).
    rewrite He, H2. simpl. rewrite Hvis. repeat split; auto.
    intros H; discriminate H.
  - (* another mode, gutter hidden: margin updated, gutter shown *)
    set (s := call Area_update (set_areaVisible true m)).
    assert (He : updateLineNumberArea e = s)
      by (unfold updateLineNumberArea; rewrite Hty, Hvis; reflexivity).
    assert (Hs : m_lineNumberType s = m_lineNumberType e
                 /\ areaWidth s = areaWidth e
                 /\ editorVisible s = editorVisible e
                 /\ areaVisible s = editorVisible e
                 /\ viewportMarginLeft s = areaWidth e)
      by (subst s; simpl; rewrite Hed'; auto).
    destruct Hs as (Hsty & Hsw & Hsed & Hsvis & Hsleft).
    assert (Hfix : updateLineNumberAreaMargin s = s).
    { apply updateLineNumberAreaMargin_fixed. rewrite Hsty, Hty, Hsw. exact Hsleft. }
    assert (H2 : updateLineNumberArea s
                 = if editorVisible e
                   then call Area_update s
                   else call Area_update (set_areaVisible true s)).
    { unfold updateLineNumberArea. rewrite Hsty, Hty, Hsvis. cbn [negb].
      destruct (editorVisible e); cbn [negb]; [reflexivity|].
      rewrite Hfix. reflexivity. }
    rewrite He, H2, Hsvis, Hsty, Hsw, Hsed. cbn [orb].
    destruct (editorVisible e) eqn:Hed; simpl; rewrite ?Hsed, ?Hed;
      repeat split; auto; intros; solve [discriminate | reflexivity].
Qed.

(** X17: a paint call in a mode other than [None] leaves the widget as it
    is and fills the background; when the layout names no block of the
    document as the first visible one (in particular for a document without
    blocks) nothing is drawn and no assertion fails. *)
Theorem paint_without_first_block ctx e :
  (m_lineNumberType e <> LineNumberType.None ->
   (paintLineNumberArea ctx e).1 = e
   /\ pr_filled (paintLineNumberArea ctx e).2 = true)
  /\ (firstVisibleBlock ctx = None ->
      pr_drawn (paintLineNumberArea ctx e).2 = []
      /\ pr_assertFailed (paintLineNumberArea ctx e).2 = false)
  /\ (document ctx = [] -> firstVisibleBlock ctx = None).
Proof.
  split; [|split].
  - intros Hty. rewrite paintLineNumberArea_state.
    assert (Hb : LineNumberType.eqb (m_lineNumberType e) LineNumberType.None = false)
      by (destruct (m_lineNumberType e); try reflexivity; contradiction).
    rewrite Hb. split; [reflexivity|].
    unfold paintLineNumberArea. rewrite Hb.
    destruct (firstVisibleBlock ctx); [|reflexivity].
    destruct (LineNumberType.eqb (m_lineNumberType e) LineNumberType.CodeBlock);
      [|reflexivity].
    destruct (paintCodeBlockNumbers _ _ _ _ _ _). reflexivity.
  - intros Hfirst. unfold paintLineNumberArea. rewrite Hfirst.
    destruct (LineNumberType.eqb _ _); split; reflexivity.
  - intros Hdoc. unfold firstVisibleBlock. rewrite Hdoc.
    set (n := findBlockByPosition ctx 0 (int_neg (contentOffsetY ctx))).
    change (Z.of_nat (length (@nil TextBlock))) with 0.
    destruct (Z.leb_spec 0 n) as [Hle|Hgt]; [|reflexivity].
    destruct (Z.ltb_spec n 0) as [Hlt|Hge]; [lia | reflexivity].
Qed.

(** ** The further properties at sample inputs *)

Lemma caret_width_invariant_witness :
  let e := runAll [OpSetCursorBlockMode CursorBlock.BlockCaret;
                   OpCursorBlockWidthUpdated 12] (init 30) in
  cursorWidth e = 12 /\ VIRTUAL_CURSOR_BLOCK_WIDTH <= cursorWidth e.
Proof.
  split; [reflexivity|].
  refine (proj2 (caret_width_invariant
                   (runAll [OpSetCursorBlockMode CursorBlock.BlockCaret;
                            OpCursorBlockWidthUpdated 12] (init 30)) _) _).
  - exists 30, [OpSetCursorBlockMode CursorBlock.BlockCaret;
                OpCursorBlockWidthUpdated 12].
    reflexivity.
  - discriminate.
Defined.

Lemma layout_told_widget_state_witness :
  let e := runAll [OpSetBlockImageEnabled true;
                   OpSetCursorBlockMode CursorBlock.BlockCaret] (init 30) in
  layoutBlockImageEnabled (calls e) = Some (m_blockImageEnabled e)
  /\ m_blockImageEnabled e = true.
Proof.
  split; [|reflexivity].
  refine (proj1 (layout_told_widget_state
                   (runAll [OpSetBlockImageEnabled true;
                            OpSetCursorBlockMode CursorBlock.BlockCaret]
                      (init 30)) _)).
  exists 30, [OpSetBlockImageEnabled true;
              OpSetCursorBlockMode CursorBlock.BlockCaret].
  reflexivity.
Defined.

Lemma clear_followed_by_relayout_witness :
  let e := runAll [OpSetBlockImageEnabled true; OpAddImage "x" Sample.image;
                   OpSetBlockImageEnabled false] (init 30) in
  calls e !! 6%nat = Some ImageMgr_clear
  /\ calls e !! 7%nat = Some Layout_relayout.
Proof.
  split; [reflexivity|].
  refine (clear_followed_by_relayout
            (runAll [OpSetBlockImageEnabled true; OpAddImage "x" Sample.image;
                     OpSetBlockImageEnabled false] (init 30)) _ 6%nat _).
  - exists 30, [OpSetBlockImageEnabled true; OpAddImage "x" Sample.image;
                OpSetBlockImageEnabled false].
    reflexivity.
  - reflexivity.
Defined.

Lemma cursor_line_reported_when_highlighted_witness :
  let e := runAll [OpSetHighlightCursorLineBlockEnabled true 2;
                   OpCursorPositionChanged 4] (init 30) in
  calls e !! 5%nat = Some (Layout_setCursorLineBlockNumber 4)
  /\ layoutHighlight (take 5 (calls e)) = true.
Proof.
  split; [reflexivity|].
  refine (proj2 (cursor_line_reported_when_highlighted
                   (runAll [OpSetHighlightCursorLineBlockEnabled true 2;
                            OpCursorPositionChanged 4] (init 30)) _)
            5%nat 4 _).
  - exists 30, [OpSetHighlightCursorLineBlockEnabled true 2;
                OpCursorPositionChanged 4].
    reflexivity.
  - reflexivity.
Defined.


Lemma numbers_are_positive_witness :
  let ctx := Sample.context Sample.fenced 0 3 true in
  dt_text (drawText ctx 0 0 1 false) <> "0"%string.
Proof.
  refine (proj2 (numbers_are_positive (Sample.context Sample.fenced 0 3 true)
                   (Sample.widget LineNumberType.Absolute false) _ _ _ _)).
  - left. reflexivity.
  - vm_compute. discriminate.
  - vm_compute. apply list_elem_of_here.
Defined.

Lemma code_block_numbers_bounded_witness :
  let ctx := Sample.context Sample.fenced 0 0 true in
  exists n, 0 <= n <= 2
            /\ dt_text (drawText ctx 2 20 1 false) = QString_number n
            /\ (n = 0 ->
                forall i b, Z.of_nat i < 2 ->
                            document ctx !! i = Some b -> ~ isCodeBlockStart b).
Proof.
  refine (code_block_numbers_bounded (Sample.context Sample.fenced 0 0 true)
            (Sample.widget LineNumberType.CodeBlock false)
            (drawText (Sample.context Sample.fenced 0 0 true) 2 20 1 false)
            _ _ _).
  - reflexivity.
  - vm_compute. discriminate.
  - vm_compute. apply list_elem_of_here.
Defined.

Lemma closed_regions_never_abort_witness :
  pr_assertFailed
    (paintLineNumberArea (Sample.context Sample.fenced 0 0 true)
       (Sample.widget LineNumberType.CodeBlock false)).2 = false.
Proof.
  refine (closed_regions_never_abort (Sample.context Sample.fenced 0 0 true)
            (Sample.widget LineNumberType.CodeBlock false) _).
  intros i b b' Hi Hi' Hb.
  destruct i as [|[|[|[|[|[|[|i]]]]]]]; simpl in Hi, Hi';
    try discriminate Hi'; injection Hi as <-; injection Hi' as <-;
    unfold isCodeBlock, isCodeBlockStart in *; simpl in *;
    first [ left; reflexivity | right; reflexivity
          | destruct Hb as [Hb | Hb]; discriminate Hb ].
Defined.

Lemma region_numbers_independent_of_scroll_witness :
  let ctx := Sample.context Sample.fenced 3 0 true in
  dt_text (drawText ctx 3 30 2 false) = QString_number (3 - 1).
Proof.
  refine (region_numbers_independent_of_scroll
            (Sample.context Sample.fenced 3 0 true)
            (Sample.widget LineNumberType.CodeBlock false)
            [Sample.block BlockState.Normal]
            (Sample.block BlockState.CodeBlockStart)
            [Sample.block BlockState.CodeBlock;
             Sample.block BlockState.CodeBlock;
             Sample.block BlockState.CodeBlock]
            [Sample.block BlockState.CodeBlockEnd;
             Sample.block BlockState.Normal]
            3%nat
            (drawText (Sample.context Sample.fenced 3 0 true) 3 30 2 false)
            _ _ _ _ _ _ _ _ _).
  - reflexivity.
  - reflexivity.
  - reflexivity.
  - repeat constructor.
  - reflexivity.
  - simpl. lia.
  - vm_compute. discriminate.
  - vm_compute. apply list_elem_of_here.
  - simpl. lia.
Defined.

Lemma relative_numbers_symmetric_witness :
  let ctx := Sample.context Sample.fenced 2 3 true in
  dt_text (drawText ctx 2 20 1 false) = dt_text (drawText ctx 4 40 1 false).
Proof.
  refine (relative_numbers_symmetric (Sample.context Sample.fenced 2 3 true)
            (Sample.widget LineNumberType.Relative false) _ _ _ _ _ _ _ _ _).
  - reflexivity.
  - vm_compute. discriminate.
  - vm_compute. split; [discriminate | reflexivity].
  - vm_compute. apply list_elem_of_here.
  - vm_compute. apply list_elem_of_further, list_elem_of_further,
      list_elem_of_here.
  - discriminate.
  - reflexivity.
Defined.
